(** * video-dl: the download adapter, the job handlers and the batch flows

    A shallow embedding of [downloader.py] (the yt-dlp adapter, the
    progress normalisation and the formatting helpers), of the socket
    handlers of [app.py] and of the "download all" loop of [cli.py].

    Conventions.
    - Python [int] is [Z]; Python [float] is modelled by exact rationals
      [Q].  The only float operations of the sources are a division, a
      multiplication by 100, divisions by 1024 and decimal formatting; on
      byte counts below 2^53 the divisions by 1024 are exact in binary64
      and [.2f] formatting rounds the exact value half-to-even, which is
      what the rational model computes.
    - A dictionary coming from the engine or from a client is a record of
      [field]s: a key is absent, present with [None], or present with a
      value.
    - Effects (socket events, console lines, exceptions, the state of the
      external engine) are threaded by the monad [M] below. *)

From Stdlib Require Import Ascii String QArith Qabs Qround.
From stdpp Require Import base numbers option list strings pretty gmap sorting.

Local Open Scope Z_scope.

(** ** Python values at dictionary keys *)

Inductive field (T : Type) : Type :=
  | Missing
  | Null
  | Val (v : T).
Arguments Missing {T}.
Arguments Null {T}.
Arguments Val {T} v.

(** [d.get(k)]: [None] for an absent key and for a null value. *)
Definition get {T} (f : field T) : option T :=
  match f with Val v => Some v | _ => None end.

(** [d.get(k, dflt)]: the default replaces an absent key only. *)
Definition get_or {T} (dflt : T) (f : field T) : option T :=
  match f with Missing => Some dflt | Null => None | Val v => Some v end.

(** Truthiness of the values the sources test. *)
Definition truthy_Z (o : option Z) : bool :=
  match o with Some z => negb (z =? 0) | None => false end.

Definition truthy_Q (o : option Q) : bool :=
  match o with Some q => negb (Qeq_bool q 0) | None => false end.

Definition truthy_str (o : option string) : bool :=
  match o with Some s => negb (String.eqb s "") | None => false end.

(** [a or b] on optional integers: the first operand when it is truthy. *)
Definition or_Z (a b : option Z) : option Z := if truthy_Z a then a else b.
Definition or_Q (a b : option Q) : option Q := if truthy_Q a then a else b.
Definition or_str (a b : option string) : option string :=
  if truthy_str a then a else b.

(** ** Decimal formatting *)

(** Rounding of a rational to the nearest integer, ties to even: what
    [round] and the [f] presentation type do on an exact value. *)
Definition round_half_even (q : Q) : Z :=
  let n := Qnum q in
  let d := Z.pos (Qden q) in
  let fl := n / d in
  let r2 := 2 * (n mod d) in
  if r2 <? d then fl
  else if d <? r2 then fl + 1
  else if Z.even fl then fl else fl + 1.

Definition two_digits (n : Z) : string :=
  if n <? 10 then "0" +:+ pretty n else pretty n.

(** [f"{q:.2f}"] *)
Definition fmt_2f (q : Q) : string :=
  let r := round_half_even (Qabs q * 100) in
  (if Qle_bool 0 q then "" else "-")
    +:+ pretty (r / 100) +:+ "." +:+ two_digits (r mod 100).

(** [round(q, 1)] *)
Definition round1 (q : Q) : Q :=
  if Qle_bool 0 q then round_half_even (q * 10) # 10
  else - round_half_even (Qabs q * 10) # 10.

(** ** [format_bytes] (downloader.py) *)

Definition byte_units : list string := ["B"; "KB"; "MB"; "GB"].

(** The [for unit in ...] loop: return at the first unit for which the
    value is below 1024, divide by 1024 otherwise; ["TB"] after the loop. *)
Fixpoint format_bytes_loop (units : list string) (bytes_val : Q) : string :=
  match units with
  | [] => fmt_2f bytes_val +:+ " TB"
  | unit :: rest =>
      if negb (Qle_bool 1024 bytes_val)
      then fmt_2f bytes_val +:+ " " +:+ unit
      else format_bytes_loop rest (bytes_val / 1024)
  end.

Definition format_bytes (bytes_val : Q) : string :=
  format_bytes_loop byte_units bytes_val.

(** [os.path.basename] on POSIX paths: what follows the last slash. *)
Fixpoint basename (p : string) : string :=
  match p with
  | EmptyString => EmptyString
  | String c rest =>
      if Ascii.eqb c "/"%char then basename rest
      else if existsb (Ascii.eqb "/"%char) (list_ascii_of_string rest)
           then basename rest
           else p
  end.


(** ** Exceptions, events and the effect monad *)

(** An instance of [Exception], identified with its message [str(e)]. *)
Definition exn : Type := string.

Inductive res (A : Type) : Type :=
  | Ok (a : A)
  | Raise (e : exn).
Arguments Ok {A} a.
Arguments Raise {A} e.

(** The payload of a ['download_progress'] event.  The single-download
    handler fills [eta], [downloaded] and [total]; the batch handler fills
    [batch_id] instead. *)
Record progress_payload : Type := {
  pp_id : option string;
  pp_batch_id : option (option string);
  pp_status : option string;
  pp_percent : Q;
  pp_speed : string;
  pp_eta : option Z;
  pp_downloaded : option string;
  pp_total : option string
}.

(** The lines of the "download all" part of the terminal flow. *)
Inductive cli_line : Type :=
  | cli_starting (count : nat)
  | cli_item (i count : nat) (title : string)
  | cli_done
  | cli_failed
  | cli_finished
  | cli_succeeded (downloaded : Z)
  | cli_failures (failed : Z).

Inductive event : Type :=
  | download_started (id : option string)
  | download_progress (p : progress_payload)
  | download_complete (id : option string) (filename : string)
  | download_error (id : option string) (error : string)
  | batch_progress (batch_id : option string) (current total : nat)
      (title : option string)
  | video_complete (batch_id : option string) (video_id : string)
      (success : bool)
  | batch_complete (batch_id : option string)
  | stdout (line : string)
  | console (line : cli_line)
  | progress_update (completed : Q) (speed : string).

(** A computation reads and updates the state [W] of the outside world
    (the engine), appends events to the trace and returns or raises. *)
Definition M (W A : Type) : Type := W → list event * res A * W.

Definition ret {W A} (a : A) : M W A := λ w, ([], Ok a, w).

Definition bind {W A B} (m : M W A) (k : A → M W B) : M W B :=
  λ w,
    match m w with
    | (t1, Ok a, w1) =>
        match k a w1 with (t2, r, w2) => (t1 ++ t2, r, w2) end
    | (t1, Raise e, w1) => (t1, Raise e, w1)
    end.

Definition emit {W} (e : event) : M W unit := λ w, ([e], Ok (), w).

Definition raise {W A} (e : exn) : M W A := λ w, ([], Raise e, w).

(** [try: m except Exception as e: h e] *)
Definition try_except {W A} (m : M W A) (h : exn → M W A) : M W A :=
  λ w,
    match m w with
    | (t1, Ok a, w1) => (t1, Ok a, w1)
    | (t1, Raise e, w1) =>
        match h e w1 with (t2, r, w2) => (t1 ++ t2, r, w2) end
    end.

Definition lift_res {W A} (r : res A) : M W A :=
  match r with Ok a => ret a | Raise e => raise e end.

(** The sequencing notations [x ← m; k] and [m ;; k] are stdpp's. *)
#[global] Instance M_ret {W} : MRet (M W) := λ A, @ret W A.
#[global] Instance M_bind {W} : MBind (M W) := λ A B k m, @bind W A B m k.

(** A [for] statement whose body neither breaks nor continues. *)
Fixpoint for_each {W A} (body : A → M W unit) (xs : list A) : M W unit :=
  match xs with
  | [] => ret ()
  | x :: rest => body x ;; for_each body rest
  end.

(** [enumerate(xs, start)] *)
Fixpoint enumerate {A} (start : nat) (xs : list A) : list (nat * A) :=
  match xs with
  | [] => []
  | x :: rest => (start, x) :: enumerate (S start) rest
  end.

(** [str(x)] of an optional string, as an f-string renders it. *)
Definition py_str (o : option string) : string :=
  match o with Some s => s | None => "None" end.

(** ** Data model of downloader.py *)

(** The dictionary yt-dlp hands to a progress hook. *)
Record RawProgress : Type := {
  d_status : field string;
  d_downloaded_bytes : field Z;
  d_total_bytes : field Z;
  d_total_bytes_estimate : field Z;
  d_speed : field Q;
  d_eta : field Z;
  d_filename : field string
}.

Record DownloadProgress : Type := {
  status : option string;
  downloaded_bytes : option Z;
  total_bytes : Z;
  speed : Q;
  eta : Z;
  filename : option string;
  percent : Q
}.

(** One element of [info['formats']] as the engine reports it. *)
Record RawFormat : Type := {
  f_format_id : field string;
  f_ext : field string;
  f_resolution : field string;
  f_filesize : field Z;
  f_vcodec : field string;
  f_acodec : field string;
  f_quality : field Q;
  f_height : field Z;
  f_fps : field Q
}.

(** The [format_info] dictionaries kept in [VideoInfo.formats]. *)
Record FormatInfo : Type := {
  format_id : option string;
  ext : option string;
  resolution : option string;
  filesize : option Z;
  vcodec : option string;
  acodec : option string;
  quality : option Q;
  height : option Z;
  fps : option Q
}.

(** The engine's metadata dictionary.  It stands for a non-empty
    dictionary; an empty or null engine result is [None] at the call. *)
Record InfoDict : Type := {
  i_title : field string;
  i_duration : field Z;
  i_thumbnail : field string;
  i_uploader : field string;
  i_formats : field (list RawFormat)
}.

Record VideoInfo : Type := {
  url : string;
  title : option string;
  duration : Z;
  thumbnail : option string;
  uploader : option string;
  formats : list FormatInfo
}.

(** A quality option, the dictionary [{'id': ..., 'label': ...}]. *)
Record QualityOption : Type := {
  opt_id : string;
  opt_label : string
}.

(** One entry of a flat playlist listing; a falsy entry ([None] or an
    empty dictionary) is [None] in the listing. *)
Record EntryDict : Type := {
  e_url : field string;
  e_webpage_url : field string;
  e_title : field string;
  e_duration : field Z;
  e_thumbnail : field string
}.

(** [info['entries']] is consumed lazily: the items it yields, then
    possibly an exception raised by the engine while it is iterated. *)
Record Entries : Type := {
  items : list (option EntryDict);
  failure : option exn
}.

Record FlatInfo : Type := {
  entries : field Entries
}.

(** The dictionaries returned by [get_channel_videos]. *)
Record Video : Type := {
  v_url : option string;
  v_title : option string;
  v_duration : option Z;
  v_thumbnail : option string
}.

(** ** The external engine (yt-dlp), behind its three uses

    Every call may raise, and may change the state of the world.
    - [extract_info]: [extract_info(url, download=False)] under the
      options of [get_video_info];
    - [extract_flat]: the same under the options of [get_channel_videos],
      with the value of ['playlist_items'];
    - [run_download]: [extract_info(url, download=True)] under the
      options of [download_video] (format selector and output template):
      the reports it passes to the progress hooks, in order, and then its
      result;
    - [prepare_filename]: [ydl.prepare_filename(info)]. *)
Record Engine (W : Type) : Type := {
  extract_info : string → W → res (option InfoDict) * W;
  extract_flat : string → option string → W → res (option FlatInfo) * W;
  run_download : option string → option string → string → W →
                 list RawProgress * res (option InfoDict) * W;
  prepare_filename : string → InfoDict → res string
}.
Arguments extract_info {W}.
Arguments extract_flat {W}.
Arguments run_download {W}.
Arguments prepare_filename {W}.

(** ** downloader.py: [VideoDownloader] *)

Section Downloader.
Context {W : Type} (eng : Engine W).

Record VideoDownloader : Type := {
  download_dir : string;
  _progress_callback : option (DownloadProgress → M W unit)
}.

(** [VideoDownloader(download_dir)].  The directory is created when it
    does not exist; creating it is taken to succeed. *)
Definition VideoDownloader_init (download_dir : string) : VideoDownloader :=
  {| download_dir := download_dir; _progress_callback := None |}.

Definition set_progress_callback (self : VideoDownloader)
    (callback : DownloadProgress → M W unit) : VideoDownloader :=
  {| download_dir := download_dir self;
     _progress_callback := Some callback |}.

(** [d.get('total_bytes') or d.get('total_bytes_estimate') or 0] *)
Definition total_of (d : RawProgress) : Z :=
  default 0
    (or_Z (get (d_total_bytes d))
       (or_Z (get (d_total_bytes_estimate d)) (Some 0))).

(** [(downloaded / total * 100) if total > 0 else 0]; the division
    raises [TypeError] on a null [downloaded]. *)
Definition percent_of (downloaded : option Z) (total : Z) : res Q :=
  if 0 <? total then
    match downloaded with
    | Some n => Ok (inject_Z n / inject_Z total * 100)%Q
    | None => Raise "unsupported operand type(s) for /: 'NoneType' and 'int'"
    end
  else Ok 0%Q.

(** The [DownloadProgress] built by [_progress_hook]. *)
Definition normalize (d : RawProgress) : res DownloadProgress :=
  let total := total_of d in
  let downloaded := get_or 0 (d_downloaded_bytes d) in
  match percent_of downloaded total with
  | Raise e => Raise e
  | Ok percent =>
      Ok {| status := get_or "unknown" (d_status d);
            downloaded_bytes := downloaded;
            total_bytes := total;
            speed := default 0%Q (or_Q (get_or 0%Q (d_speed d)) (Some 0%Q));
            eta := default 0 (or_Z (get_or 0 (d_eta d)) (Some 0));
            filename := get_or "" (d_filename d);
            percent := percent |}
  end.

Definition _progress_hook (self : VideoDownloader) (d : RawProgress)
    : M W unit :=
  match _progress_callback self with
  | Some callback => progress ← lift_res (normalize d); callback progress
  | None => ret ()
  end.

(** A call of the engine that emits nothing. *)
Definition call {A} (f : W → res A * W) : M W A :=
  λ w, match f w with (r, w') => ([], r, w') end.

Definition format_info_of (f : RawFormat) : FormatInfo :=
  {| format_id := get_or "" (f_format_id f);
     ext := get_or "" (f_ext f);
     resolution := get_or "audio only" (f_resolution f);
     filesize := get_or 0 (f_filesize f);
     vcodec := get_or "none" (f_vcodec f);
     acodec := get_or "none" (f_acodec f);
     quality := get_or 0%Q (f_quality f);
     height := get_or 0 (f_height f);
     fps := get_or 0%Q (f_fps f) |}.

(** [f.get('vcodec') != 'none' or f.get('acodec') != 'none'] *)
Definition has_stream (f : RawFormat) : bool :=
  negb (bool_decide (get (f_vcodec f) = Some "none"))
  || negb (bool_decide (get (f_acodec f) = Some "none")).

(** The loop over [info.get('formats', [])]. *)
Fixpoint collect_formats (raw : list RawFormat) (formats : list FormatInfo)
    : list FormatInfo :=
  match raw with
  | [] => formats
  | f :: rest =>
      collect_formats rest
        (if has_stream f then formats ++ [format_info_of f] else formats)
  end.

Definition get_video_info (url : string) : M W (option VideoInfo) :=
  try_except
    (info ← call (extract_info eng url);
     match info with
     | None => ret None
     | Some info =>
         raw ← match get_or [] (i_formats info) with
               | Some raw => ret raw
               | None => raise "'NoneType' object is not iterable"
               end;
         ret (Some {| url := url;
                      title := get_or "Unknown" (i_title info);
                      duration :=
                        default 0 (or_Z (get_or 0 (i_duration info)) (Some 0));
                      thumbnail := get_or "" (i_thumbnail info);
                      uploader := get_or "Unknown" (i_uploader info);
                      formats := collect_formats raw [] |})
     end)
    (λ e, emit (stdout ("Error getting video info: " +:+ e));; ret None).

Definition standard_heights : list Z :=
  [2160; 1440; 1080; 720; 480; 360; 240; 144].

(** [height and height in standard_heights] *)
Definition is_standard (height : option Z) : bool :=
  truthy_Z height && bool_decide (default 0 height ∈ standard_heights).

(** The loop that fills the set [available_heights]. *)
Fixpoint collect_heights (fs : list FormatInfo) (available_heights : gset Z)
    : gset Z :=
  match fs with
  | [] => available_heights
  | f :: rest =>
      collect_heights rest
        (if is_standard (height f)
         then {[ default 0 (height f) ]} ∪ available_heights
         else available_heights)
  end.

(** [sorted(heights, reverse=True)] *)
Definition sorted_reverse (heights : gset Z) : list Z :=
  merge_sort Z.ge (elements heights).

Definition best_option : QualityOption :=
  {| opt_id := "bestvideo+bestaudio/best";
     opt_label := "Best Quality (Video + Audio)" |}.

Definition height_option (height : Z) : QualityOption :=
  {| opt_id := "bestvideo[height<=" +:+ pretty height
                 +:+ "]+bestaudio/best[height<=" +:+ pretty height +:+ "]";
     opt_label := pretty height +:+ "p (Video + Audio)" |}.

Definition audio_best_option : QualityOption :=
  {| opt_id := "bestaudio/best"; opt_label := "Audio Only (Best Quality)" |}.

Definition audio_m4a_option : QualityOption :=
  {| opt_id := "bestaudio[ext=m4a]/bestaudio";
     opt_label := "Audio Only (M4A)" |}.

(** What [get_quality_options] builds once [info] is there. *)
Definition quality_options_of (info : VideoInfo) : list QualityOption :=
  let quality_options := [best_option] in
  let available_heights := collect_heights (formats info) ∅ in
  let quality_options :=
    foldl (λ acc height, acc ++ [height_option height])
      quality_options (sorted_reverse available_heights) in
  let quality_options := quality_options ++ [audio_best_option] in
  quality_options ++ [audio_m4a_option].

Definition get_quality_options (url : string) : M W (list QualityOption) :=
  info ← get_video_info url;
  match info with
  | None => ret []
  | Some info => ret (quality_options_of info)
  end.

(** [extract_info(url, download=True)]: the engine calls the progress
    hook on each report; an exception of the hook ends the call. *)
Definition extract_info_download (self : VideoDownloader)
    (url quality : option string) (output_path : string)
    : M W (option InfoDict) :=
  λ w,
    match run_download eng url quality output_path w with
    | (reports, r, w') =>
        (for_each (_progress_hook self) reports;; lift_res r) w'
    end.

(** [str(self.download_dir / (filename_template or '%(title)s.%(ext)s'))]
    for a relative template. *)
Definition output_path_of (self : VideoDownloader)
    (filename_template : option string) : string :=
  let output_template :=
    if truthy_str filename_template then default "" filename_template
    else "%(title)s.%(ext)s" in
  download_dir self +:+ "/" +:+ output_template.

Definition download_video (self : VideoDownloader)
    (url quality filename_template : option string) : M W (option string) :=
  let output_path := output_path_of self filename_template in
  try_except
    (info ← extract_info_download self url quality output_path;
     match info with
     | Some info =>
         name ← lift_res (prepare_filename eng output_path info);
         ret (Some name)
     | None => ret None
     end)
    (λ e, emit (stdout ("Error downloading video: " +:+ e));; ret None).

Definition video_of (entry : EntryDict) : Video :=
  {| v_url := or_str (get (e_url entry)) (get_or "" (e_webpage_url entry));
     v_title := get_or "Unknown" (e_title entry);
     v_duration := get_or 0 (e_duration entry);
     v_thumbnail := get_or "" (e_thumbnail entry) |}.

(** The loop of [get_channel_videos] from index [i] on: the list
    [videos] when the loop is left, and the exception that ended it, if
    any.  [break] leaves the iterator unconsumed. *)
Fixpoint collect_videos (max_videos : option Z) (i : Z)
    (es : list (option EntryDict)) (fail : option exn) (videos : list Video)
    : list Video * option exn :=
  match es with
  | [] => (videos, fail)
  | entry :: rest =>
      if truthy_Z max_videos && (default 0 max_videos <=? i)
      then (videos, None)
      else collect_videos max_videos (i + 1) rest fail
             (match entry with
              | Some entry => videos ++ [video_of entry]
              | None => videos
              end)
  end.

(** The [try] block of [get_channel_videos]: the trace, how the block
    was left (an early [return], its end, or an exception), the local
    list [videos] at that point and the world. *)
(** [f'1:{max_videos}' if max_videos else None] *)
Definition playlist_items_of (max_videos : option Z) : option string :=
  if truthy_Z max_videos
  then Some ("1:" +:+ pretty (default 0 max_videos)) else None.

Definition no_entries : Entries := {| items := []; failure := None |}.

Definition channel_try (channel_url : string) (max_videos : option Z)
    (w : W) : res (option (list Video)) * list Video * W :=
  match extract_flat eng channel_url (playlist_items_of max_videos) w with
  | (Raise e, w') => (Raise e, [], w')
  | (Ok None, w') => (Ok (Some []), [], w')
  | (Ok (Some info), w') =>
      match get_or no_entries (entries info) with
      | None => (Raise "'NoneType' object is not iterable", [], w')
      | Some es =>
          match collect_videos max_videos 0 (items es) (failure es) [] with
          | (videos, Some e) => (Raise e, videos, w')
          | (videos, None) => (Ok None, videos, w')
          end
      end
  end.

Definition get_channel_videos (channel_url : string)
    (max_videos : option Z) : M W (list Video) :=
  λ w,
    match channel_try channel_url max_videos w with
    | (Ok (Some returned), _, w') => ([], Ok returned, w')
    | (Ok None, videos, w') => ([], Ok videos, w')
    | (Raise e, videos, w') =>
        ([stdout ("Error getting channel videos: " +:+ e)], Ok videos, w')
    end.

End Downloader.

Arguments VideoDownloader W : clear implicits.

(** ** app.py: the socket handlers *)

(** The payload of ['start_download']. *)
Record StartDownload : Type := {
  sd_url : field string;
  sd_quality : field string;
  sd_id : field string
}.

(** One element of the ['videos'] list of ['start_batch_download']. *)
Record BatchVideo : Type := {
  bv_url : field string;
  bv_title : field string
}.

Record StartBatch : Type := {
  sb_videos : field (list BatchVideo);
  sb_quality : field string;
  sb_batch_id : field string
}.

Section App.
Context {W : Type} (eng : Engine W).

(** [format_bytes(p.speed) + '/s' if p.speed else alt] *)
Definition speed_text (p : DownloadProgress) (alt : string) : string :=
  if truthy_Q (Some (speed p)) then format_bytes (speed p) +:+ "/s" else alt.

(** [progress_callback] of [handle_download].  [format_bytes] raises
    [TypeError] on a null byte count; [eventlet.sleep(0)] only yields. *)
Definition progress_callback (download_id : option string)
    (p : DownloadProgress) : M W unit :=
  downloaded ← match downloaded_bytes p with
               | Some n => ret (format_bytes (inject_Z n))
               | None =>
                   raise "'<' not supported between 'NoneType' and 'int'"
               end;
  emit (download_progress
          {| pp_id := download_id;
             pp_batch_id := None;
             pp_status := status p;
             pp_percent := round1 (percent p);
             pp_speed := speed_text p "";
             pp_eta := Some (eta p);
             pp_downloaded := Some downloaded;
             pp_total := Some (format_bytes (inject_Z (total_bytes p))) |}).

(** [local_downloader = VideoDownloader("downloads")] followed by
    [local_downloader.set_progress_callback(callback)]. *)
Definition local_downloader (callback : DownloadProgress → M W unit)
    : VideoDownloader W :=
  set_progress_callback (VideoDownloader_init "downloads") callback.

(** [data.get('id', url)] with [url = data.get('url', '')] *)
Definition download_id_of (data : StartDownload) : option string :=
  match sd_id data with
  | Missing => get_or "" (sd_url data)
  | Null => None
  | Val v => Some v
  end.

Definition do_download (url quality download_id : option string)
    : M W unit :=
  try_except
    (let local_downloader :=
       local_downloader (progress_callback download_id) in
     result ← download_video eng local_downloader url quality None;
     if truthy_str result
     then emit (download_complete download_id
                  (basename (default "" result)))
     else emit (download_error download_id "Download failed"))
    (λ e, emit (download_error download_id e)).

(** [handle_download]: what the handler does itself, and the greenlet
    it hands to [eventlet.spawn], if any. *)
Definition handle_download (data : StartDownload)
    : M W (option (M W unit)) :=
  let url := get_or "" (sd_url data) in
  let quality := get_or "best" (sd_quality data) in
  let download_id := download_id_of data in
  if negb (truthy_str url)
  then emit (download_error download_id "URL is required");; ret None
  else
    emit (download_started download_id);;
    ret (Some (do_download url quality download_id)).

(** [make_progress_callback(vid)] of [do_batch_download]. *)
Definition make_progress_callback (batch_id : option string) (vid : string)
    (p : DownloadProgress) : M W unit :=
  emit (download_progress
          {| pp_id := Some vid;
             pp_batch_id := Some batch_id;
             pp_status := status p;
             pp_percent := round1 (percent p);
             pp_speed := speed_text p "";
             pp_eta := None;
             pp_downloaded := None;
             pp_total := None |}).

(** [f"{batch_id}_{i}"] *)
Definition video_id_of (batch_id : option string) (i : nat) : string :=
  py_str batch_id +:+ "_" +:+ pretty i.

(** The download of the [i]-th video of a batch. *)
Definition batch_download_video (quality batch_id : option string)
    (i : nat) (video : BatchVideo) : M W (option string) :=
  let local_downloader :=
    local_downloader
      (make_progress_callback batch_id (video_id_of batch_id i)) in
  download_video eng local_downloader (get_or "" (bv_url video)) quality None.

(** The body of the loop of [do_batch_download]. *)
Definition batch_body (quality batch_id : option string) (total : nat)
    (iv : nat * BatchVideo) : M W unit :=
  let '(i, video) := iv in
  emit (batch_progress batch_id (i + 1) total
          (get_or "Unknown" (bv_title video)));;
  result ← batch_download_video quality batch_id i video;
  emit (video_complete batch_id (video_id_of batch_id i)
          (bool_decide (result ≠ None))).

Definition do_batch_download (videos : option (list BatchVideo))
    (quality batch_id : option string) : M W unit :=
  videos ← match videos with
           | Some videos => ret videos
           | None => raise "'NoneType' object is not iterable"
           end;
  for_each (batch_body quality batch_id (length videos))
    (enumerate 0 videos);;
  emit (batch_complete batch_id).

Definition handle_batch_download (data : StartBatch)
    : M W (option (M W unit)) :=
  let videos := get_or [] (sb_videos data) in
  let quality := get_or "best" (sb_quality data) in
  let batch_id := get_or "batch" (sb_batch_id data) in
  ret (Some (do_batch_download videos quality batch_id)).

(** A handler followed by the greenlet it spawned, run to its end: the
    events of one request in the order they are emitted. *)
Definition run_request (handler : M W (option (M W unit))) : M W unit :=
  spawned ← handler;
  match spawned with
  | Some greenlet => greenlet
  | None => ret ()
  end.

(** ** cli.py: the "download all" part of [download_channel_playlist] *)

(** [update_progress]: the refresh of the progress bar. *)
Definition update_progress (p : DownloadProgress) : M W unit :=
  emit (progress_update (percent p) (speed_text p "")).

(** [s[:n]] *)
Definition take_chars (n : nat) (s : string) : string := substring 0 n s.

(** The loop over [enumerate(videos, 1)] with its two counters.
    [video['title'][:50]] raises on a null title; the listing table
    printed before the loop has already taken [len] of every title. *)
Fixpoint download_loop (downloader : VideoDownloader W) (quality : string)
    (count : nat) (videos : list (nat * Video)) (downloaded failed : Z)
    : M W (Z * Z) :=
  match videos with
  | [] => ret (downloaded, failed)
  | (i, video) :: rest =>
      title ← match v_title video with
              | Some title => ret title
              | None => raise "'NoneType' object is not subscriptable"
              end;
      emit (console (cli_item i count (take_chars 50 title)));;
      let downloader := set_progress_callback downloader update_progress in
      result ← download_video eng downloader (v_url video) (Some quality) None;
      if truthy_str result
      then emit (console cli_done);;
           download_loop downloader quality count rest (downloaded + 1) failed
      else emit (console cli_failed);;
           download_loop downloader quality count rest downloaded (failed + 1)
  end.

(** Lines 219-254 of [download_channel_playlist], once the listing,
    the confirmation and the quality are there. *)
Definition download_channel_playlist (downloader : VideoDownloader W)
    (videos : list Video) (quality : string) : M W unit :=
  emit (console (cli_starting (length videos)));;
  tally ← download_loop downloader quality (length videos)
            (enumerate 1 videos) 0 0;
  let '(downloaded, failed) := tally in
  emit (console cli_finished);;
  emit (console (cli_succeeded downloaded));;
  if negb (failed =? 0) then emit (console (cli_failures failed)) else ret ().

End App.

(** ** Vocabulary of the statements *)

(** The value after [k] passes through the loop of [format_bytes]. *)
Definition scaled (k : nat) (q : Q) : Q := Nat.iter k (λ v, v / 1024)%Q q.

Definition unit_name (k : nat) : string :=
  nth k (byte_units ++ ["TB"]) "TB".

Definition is_digit (c : ascii) : bool :=
  (48 <=? nat_of_ascii c)%nat && (nat_of_ascii c <=? 57)%nat.

(** A numeral with exactly two digits after the point. *)
Definition two_decimals (s : string) : Prop :=
  ∃ (n : Z) (d1 d2 : ascii),
    0 ≤ n ∧ s = pretty n +:+ "." +:+ String d1 (String d2 "")
    ∧ is_digit d1 = true ∧ is_digit d2 = true.

Definition two_digit_string (s : string) : bool :=
  match s with
  | String d1 (String d2 EmptyString) => is_digit d1 && is_digit d2
  | _ => false
  end.

(** ** Sample inputs *)

(** A report of 200 bytes received out of an announced total of 100. *)
Definition overshoot_report : RawProgress :=
  {| d_status := Val "downloading";
     d_downloaded_bytes := Val 200;
     d_total_bytes := Val 100;
     d_total_bytes_estimate := Missing;
     d_speed := Val (2048 # 1)%Q;
     d_eta := Val 0;
     d_filename := Val "downloads/clip.mp4" |}.

(** A report of 50 bytes received out of 200. *)
Definition quarter_report : RawProgress :=
  {| d_status := Val "downloading";
     d_downloaded_bytes := Val 50;
     d_total_bytes := Null;
     d_total_bytes_estimate := Val 200;
     d_speed := Null;
     d_eta := Missing;
     d_filename := Val "downloads/clip.mp4" |}.

(** A format dictionary with a video stream of the given height. *)
Definition raw_format (id : string) (h : Z) : RawFormat :=
  {| f_format_id := Val id;
     f_ext := Val "mp4";
     f_resolution := Missing;
     f_filesize := Null;
     f_vcodec := Val "avc1";
     f_acodec := Val "none";
     f_quality := Missing;
     f_height := Val h;
     f_fps := Val (30 # 1)%Q |}.

Definition sample_info (fs : list RawFormat) : InfoDict :=
  {| i_title := Val "Clip";
     i_duration := Val 65;
     i_thumbnail := Missing;
     i_uploader := Val "someone";
     i_formats := Val fs |}.

(** A scripted engine whose world is the log of the URLs it was asked to
    download, latest last. *)
Definition scripted_engine
    (meta : string → res (option InfoDict))
    (flat : string → res (option FlatInfo))
    (dl : option string → list RawProgress * res (option InfoDict))
    : Engine (list (option string)) :=
  {| extract_info := λ url w, (meta url, w);
     extract_flat := λ url _ w, (flat url, w);
     run_download := λ url _ _ w,
       match dl url with (reports, r) => (reports, r, w ++ [url]) end;
     prepare_filename := λ _ info,
       Ok ("downloads/" +:+ py_str (get (i_title info)) +:+ ".mp4") |}.

Definition no_listing (url : string) : res (option FlatInfo) :=
  Raise "Unsupported URL".

Definition no_download (url : option string)
    : list RawProgress * res (option InfoDict) :=
  ([], Raise "Unsupported URL").

(** An engine that reports the four heights 1080, 720, 2160, 720. *)
Definition ladder_engine : Engine (list (option string)) :=
  scripted_engine
    (λ _, Ok (Some (sample_info
       [raw_format "137" 1080; raw_format "136" 720;
        raw_format "313" 2160; raw_format "22" 720])))
    no_listing no_download.

(** An engine whose metadata carry no format at all. *)
Definition formatless_engine : Engine (list (option string)) :=
  scripted_engine (λ _, Ok (Some (sample_info []))) no_listing no_download.

(** A computation that returns from the world [w]: it does not raise. *)
Definition returns {W A} (m : M W A) (w : W) : Prop :=
  ∃ t a w', m w = (t, Ok a, w').

Definition sample_entry (n : string) : EntryDict :=
  {| e_url := Val ("https://example.org/watch?v=" +:+ n);
     e_webpage_url := Missing;
     e_title := Val ("Video " +:+ n);
     e_duration := Val 65;
     e_thumbnail := Null |}.

(** A source listing of five entries, whatever maximum is asked for. *)
Definition five_entries : FlatInfo :=
  {| entries := Val {| items := [Some (sample_entry "a");
                                 Some (sample_entry "b");
                                 Some (sample_entry "c");
                                 Some (sample_entry "d");
                                 Some (sample_entry "e")];
                       failure := None |} |}.

Definition playlist_engine : Engine (list (option string)) :=
  scripted_engine (λ _, Raise "Unsupported URL")
    (λ _, Ok (Some five_entries)) no_download.


(** The parts of a run. *)
Definition trace_of {W A} (m : M W A) (w : W) : list event := (m w).1.1.
Definition result_of {W A} (m : M W A) (w : W) : res A := (m w).1.2.
Definition world_after {W A} (m : M W A) (w : W) : W := (m w).2.

(** The terminal events of a job. *)
Definition is_terminal (e : event) : bool :=
  match e with
  | download_complete _ _ | download_error _ _ => true
  | _ => false
  end.

Definition is_progress (e : event) : bool :=
  match e with download_progress _ => true | _ => false end.

Definition is_batch_progress (e : event) : bool :=
  match e with batch_progress _ _ _ _ => true | _ => false end.

Definition is_video_complete (e : event) : bool :=
  match e with video_complete _ _ _ => true | _ => false end.

Definition is_batch_complete (e : event) : bool :=
  match e with batch_complete _ => true | _ => false end.

(** Events that a download itself produces: progress and diagnostics. *)
Definition is_download_noise (e : event) : bool :=
  match e with
  | download_progress _ | stdout _ | progress_update _ _ => true
  | _ => false
  end.

(** The terminal event [do_download] emits for a result of
    [download_video]. *)
Definition terminal_of (id result : option string) : event :=
  if truthy_str result
  then download_complete id (basename (default "" result))
  else download_error id "Download failed".

(** The results of [download_video] for the videos of a batch, from the
    [i]-th on, each download starting in the world the previous one left. *)
Fixpoint batch_results {W} (eng : Engine W) (quality batch_id : option string)
    (i : nat) (videos : list BatchVideo) (w : W) : list (option string) :=
  match videos with
  | [] => []
  | video :: rest =>
      match batch_download_video eng quality batch_id i video w with
      | (_, Ok result, w') =>
          result :: batch_results eng quality batch_id (S i) rest w'
      | (_, Raise _, w') =>
          None :: batch_results eng quality batch_id (S i) rest w'
      end
  end.

(** The ['video_complete'] events for a list of results, numbered from
    [i]. *)
Fixpoint completions (batch_id : option string) (i : nat)
    (results : list (option string)) : list event :=
  match results with
  | [] => []
  | result :: rest =>
      video_complete batch_id (video_id_of batch_id i)
        (bool_decide (result ≠ None))
      :: completions batch_id (S i) rest
  end.

(** The results of [download_video] in the terminal flow. *)
Fixpoint cli_results {W} (eng : Engine W) (downloader : VideoDownloader W)
    (quality : string) (videos : list Video) (w : W)
    : list (option string) :=
  match videos with
  | [] => []
  | video :: rest =>
      match download_video eng
              (set_progress_callback downloader update_progress)
              (v_url video) (Some quality) None w with
      | (_, Ok result, w') =>
          result :: cli_results eng downloader quality rest w'
      | (_, Raise _, w') =>
          None :: cli_results eng downloader quality rest w'
      end
  end.

Definition succeeded (results : list (option string)) : Z :=
  Z.of_nat (length (List.filter truthy_str results)).

Definition failed (results : list (option string)) : Z :=
  Z.of_nat (length (List.filter (λ r, negb (truthy_str r)) results)).

(** The closing lines of the terminal flow for a tally. *)
Definition cli_report (downloaded failed : Z) : list event :=
  [console cli_finished; console (cli_succeeded downloaded)]
  ++ (if negb (failed =? 0) then [console (cli_failures failed)] else []).

(** An engine for which every download succeeds after one report, except
    for the URL ["https://example.org/broken"], whose download raises. *)
Definition flaky_download (url : option string)
    : list RawProgress * res (option InfoDict) :=
  if bool_decide (url = Some "https://example.org/broken")
  then ([], Raise "HTTP Error 404")
  else ([quarter_report], Ok (Some (sample_info []))).

Definition flaky_engine : Engine (list (option string)) :=
  scripted_engine (λ _, Raise "Unsupported URL") no_listing flaky_download.

Definition batch_video (url name : string) : BatchVideo :=
  {| bv_url := Val url; bv_title := Val name |}.

Definition three_videos : list BatchVideo :=
  [batch_video "https://example.org/a" "A";
   batch_video "https://example.org/broken" "B";
   batch_video "https://example.org/c" "C"].

Definition listed_video (url name : string) : Video :=
  {| v_url := Some url; v_title := Some name;
     v_duration := Some 65; v_thumbnail := None |}.

Definition three_listed : list Video :=
  [listed_video "https://example.org/a" "A";
   listed_video "https://example.org/broken" "B";
   listed_video "https://example.org/c" "C"].

Definition start_request : StartDownload :=
  {| sd_url := Val "https://example.org/a";
     sd_quality := Missing;
     sd_id := Val "job-1" |}.


(** ** downloader.py: [format_duration] and [download_channel] *)

(** [format_duration]: [divmod] rounds towards minus infinity, as [Z.div]
    and [Z.modulo] do for a positive divisor; [{n:02d}] pads to two
    digits. *)
Definition format_duration (seconds : Z) : string :=
  let hours := seconds / 3600 in
  let remainder := seconds mod 3600 in
  let minutes := remainder / 60 in
  let secs := remainder mod 60 in
  if negb (hours =? 0)
  then pretty hours +:+ ":" +:+ two_digits minutes +:+ ":" +:+ two_digits secs
  else pretty minutes +:+ ":" +:+ two_digits secs.

Section Channel.
Context {W : Type} (eng : Engine W).

(** The loop of [download_channel] over [enumerate(videos)]. *)
Fixpoint download_channel_loop (self : VideoDownloader W)
    (quality : option string)
    (video_callback : option (nat → nat → option string → M W unit))
    (total : nat) (videos : list (nat * Video))
    (downloaded_files : list string) : M W (list string) :=
  match videos with
  | [] => ret downloaded_files
  | (i, video) :: rest =>
      match video_callback with
      | Some callback => callback (i + 1)%nat total (v_title video)
      | None => ret ()
      end;;
      result ← download_video eng self (v_url video) quality None;
      download_channel_loop self quality video_callback total rest
        (if truthy_str result then downloaded_files ++ [default "" result]
         else downloaded_files)
  end.

Definition download_channel (self : VideoDownloader W) (channel_url : string)
    (quality : option string) (max_videos : option Z)
    (video_callback : option (nat → nat → option string → M W unit))
    : M W (list string) :=
  videos ← get_channel_videos eng channel_url max_videos;
  download_channel_loop self quality video_callback (length videos)
    (enumerate 0 videos) [].

End Channel.

(** The results of [download_video] for a list of URLs, each download
    starting in the world the previous one left. *)
Fixpoint sequential_results {W} (eng : Engine W) (self : VideoDownloader W)
    (quality : option string) (urls : list (option string)) (w : W)
    : list (option string) :=
  match urls with
  | [] => []
  | url :: rest =>
      match download_video eng self url quality None w with
      | (_, Ok result, w') =>
          result :: sequential_results eng self quality rest w'
      | (_, Raise _, w') =>
          None :: sequential_results eng self quality rest w'
      end
  end.

(** The paths among a list of results: the truthy ones. *)
Definition paths_of (results : list (option string)) : list string :=
  default "" <$> List.filter truthy_str results.

(** ** app.py: the two HTTP routes *)

(** [jsonify(body)] with status 200, or [jsonify({'error': ...}), status]. *)
Inductive response (A : Type) : Type :=
  | json_ok (body : A)
  | json_error (error : string) (status : Z).
Arguments json_ok {A} body.
Arguments json_error {A} error status.

Record InfoRequest : Type := { ir_url : field string }.

Record InfoBody : Type := {
  ib_title : option string;
  ib_uploader : option string;
  ib_duration : string;
  ib_thumbnail : option string;
  ib_qualities : list QualityOption
}.

Record ChannelRequest : Type := {
  cr_url : field string;
  cr_max_videos : field Z
}.

Record ChannelItem : Type := {
  ci_url : option string;
  ci_title : option string;
  ci_duration : string;
  ci_thumbnail : option string
}.

Record ChannelBody : Type := {
  cb_videos : list ChannelItem;
  cb_count : nat
}.

Module app.
Section Routes.
Context {W : Type} (eng : Engine W).

(** The route [/api/info]; [data] is [request.json]. *)
Definition get_video_info (data : InfoRequest) : M W (response InfoBody) :=
  let url := get_or "" (ir_url data) in
  if negb (truthy_str url) then ret (json_error "URL is required" 400)
  else
    info ← get_video_info eng (default "" url);
    match info with
    | None => ret (json_error "Could not fetch video info" 400)
    | Some info =>
        qualities ← get_quality_options eng (default "" url);
        ret (json_ok {| ib_title := title info;
                        ib_uploader := uploader info;
                        ib_duration := format_duration (duration info);
                        ib_thumbnail := thumbnail info;
                        ib_qualities := qualities |})
    end.

(** [format_duration(v['duration']) if v['duration'] else '--:--'] *)
Definition channel_item (v : Video) : ChannelItem :=
  {| ci_url := v_url v;
     ci_title := v_title v;
     ci_duration :=
       if truthy_Z (v_duration v) then format_duration (default 0 (v_duration v))
       else "--:--";
     ci_thumbnail := v_thumbnail v |}.

(** The route [/api/channel]. *)
Definition get_channel_videos (data : ChannelRequest)
    : M W (response ChannelBody) :=
  let url := get_or "" (cr_url data) in
  let max_videos := get_or 10 (cr_max_videos data) in
  if negb (truthy_str url) then ret (json_error "URL is required" 400)
  else
    videos ← get_channel_videos eng (default "" url) max_videos;
    match videos with
    | [] => ret (json_error "Could not fetch videos" 400)
    | _ => ret (json_ok {| cb_videos := channel_item <$> videos;
                           cb_count := length videos |})
    end.

End Routes.
End app.

(** ** cli.py: the choices of the menus *)

(** [l[i]] for a Python list: a negative index counts from the end, an
    index outside the list raises [IndexError]. *)
Definition py_index {A} (l : list A) (i : Z) : res A :=
  let n := Z.of_nat (length l) in
  let j := if i <? 0 then i + n else i in
  if (0 <=? j) && (j <? n) then
    match l !! Z.to_nat j with
    | Some x => Ok x
    | None => Raise "list index out of range"
    end
  else Raise "list index out of range".

Definition quality_presets : list (string * string) :=
  [("best", "Best Quality");
   ("bestvideo[height<=1080]+bestaudio/best[height<=1080]", "1080p");
   ("bestvideo[height<=720]+bestaudio/best[height<=720]", "720p");
   ("bestvideo[height<=480]+bestaudio/best[height<=480]", "480p");
   ("bestaudio", "Audio Only")].

(** [quality_presets[min(quality_choice, len(quality_presets)) - 1][0]]
    of [download_channel_playlist]. *)
Definition preset_quality (quality_choice : Z) : res string :=
  match py_index quality_presets
          (Z.min quality_choice (Z.of_nat (length quality_presets)) - 1) with
  | Ok preset => Ok preset.1
  | Raise e => Raise e
  end.

(** The answers given to the prompts of [settings_menu]; each prompt is
    only asked in its own branch. *)
Record SettingsAnswers : Type := {
  ans_choice : Z;
  ans_quality : Z;
  ans_max : Z;
  ans_dir : string
}.

Definition settings_options : list string :=
  ["best"; "1080p"; "720p"; "480p"; "audio"].

(** [settings_menu]: the triple it returns (the table it prints first is
    not part of the result). *)
Definition settings_menu (current_quality : string) (current_max : Z)
    (current_dir : string) (answers : SettingsAnswers)
    : res (string * Z * string) :=
  let choice := ans_choice answers in
  if choice =? 1 then
    match py_index settings_options (ans_quality answers - 1) with
    | Ok option => Ok (option, current_max, current_dir)
    | Raise e => Raise e
    end
  else if choice =? 2 then Ok (current_quality, ans_max answers, current_dir)
  else if choice =? 3 then Ok (current_quality, current_max, ans_dir answers)
  else Ok (current_quality, current_max, current_dir).

(** The quality prompt of [download_single_video]: the answers are read
    until one lies between 1 and [len(qualities)]; [None] while the
    prompt is still waiting for one. *)
Fixpoint pick_quality (qualities : list QualityOption) (choices : list Z)
    : option string :=
  match choices with
  | [] => None
  | choice :: rest =>
      if (1 <=? choice) && (choice <=? Z.of_nat (length qualities))
      then match py_index qualities (choice - 1) with
           | Ok q => Some (opt_id q)
           | Raise _ => pick_quality qualities rest
           end
      else pick_quality qualities rest
  end.

(** How [download_single_video] ends: the message it prints last. *)
Inductive single_outcome : Type :=
  | single_empty_url
  | single_no_info
  | single_waiting
  | single_done (file : string)
  | single_failed.

Section Single.
Context {W : Type} (eng : Engine W).

(** [update_progress] of [download_single_video]. *)
Definition update_progress_single (p : DownloadProgress) : M W unit :=
  emit (progress_update (percent p) (speed_text p "-- KB/s")).

(** [download_single_video]: [url] is the answer to the URL prompt and
    [choices] the answers to the quality prompt.  The downloader keeps
    the callback that was set on it. *)
Definition download_single_video (downloader : VideoDownloader W)
    (default_quality : string) (url : string) (choices : list Z)
    : M W (VideoDownloader W * single_outcome) :=
  if negb (truthy_str (Some url)) then ret (downloader, single_empty_url)
  else
    info ← get_video_info eng url;
    match info with
    | None => ret (downloader, single_no_info)
    | Some info =>
        qualities ← get_quality_options eng url;
        match (match qualities with
               | [] => Some default_quality
               | _ => pick_quality qualities choices
               end) with
        | None => ret (downloader, single_waiting)
        | Some quality =>
            let downloader :=
              set_progress_callback downloader update_progress_single in
            result ← download_video eng downloader (Some url) (Some quality)
                       None;
            if truthy_str result
            then ret (downloader, single_done (default "" result))
            else ret (downloader, single_failed)
        end
    end.

End Single.


(** An event of the download request with the given id. *)
Definition job_event (id : option string) (e : event) : Prop :=
  match e with
  | download_started i | download_complete i _ | download_error i _ => i = id
  | download_progress p => pp_id p = id ∧ pp_batch_id p = None
  | stdout _ => True
  | _ => False
  end.

(** An event produced while one video of a batch is downloaded. *)
Definition video_event (batch_id : option string) (vid : string) (e : event)
    : Prop :=
  match e with
  | download_progress p => pp_id p = Some vid ∧ pp_batch_id p = Some batch_id
  | stdout _ => True
  | _ => False
  end.

(** The trace of the loop of a batch, video by video from the [i]-th on:
    the announcement, the events of the download, the completion. *)
Fixpoint batch_shape (batch_id : option string) (total i : nat)
    (videos : list BatchVideo) (results : list (option string))
    (t : list event) : Prop :=
  match videos, results with
  | [], [] => t = []
  | video :: videos, result :: results =>
      ∃ during rest,
        t = batch_progress batch_id (i + 1) total
              (get_or "Unknown" (bv_title video))
            :: during
            ++ video_complete batch_id (video_id_of batch_id i)
                 (bool_decide (result ≠ None))
            :: rest
        ∧ Forall (video_event batch_id (video_id_of batch_id i)) during
        ∧ batch_shape batch_id total (S i) videos results rest
  | _, _ => False
  end.

(** A normalised report of one byte received out of three. *)
Definition third_progress : DownloadProgress :=
  {| status := Some "downloading"; downloaded_bytes := Some 1;
     total_bytes := 3; speed := 0; eta := 0; filename := None;
     percent := 100 # 3 |}.

(** A listing that yields two entries and a null one, then fails. *)
Definition broken_listing : FlatInfo :=
  {| entries := Val {| items := [Some (sample_entry "a"); None;
                                 Some (sample_entry "b")];
                       failure := Some "Connection reset" |} |}.

Definition broken_listing_engine : Engine (list (option string)) :=
  scripted_engine (λ _, Raise "Unsupported URL")
    (λ _, Ok (Some broken_listing)) flaky_download.

(** An engine that lists five entries and downloads like [flaky_engine]. *)
Definition channel_engine : Engine (list (option string)) :=
  scripted_engine (λ _, Raise "Unsupported URL")
    (λ _, Ok (Some five_entries)) flaky_download.

(** The error texts that the download handler sends to the browser. *)
Definition fixed_error (e : event) : Prop :=
  match e with
  | download_error _ error =>
      error = "URL is required" ∨ error = "Download failed"
  | _ => True
  end.

(** Events other than an error event of a job. *)
Definition not_error (e : event) : Prop :=
  match e with download_error _ _ => False | _ => True end.

(** ** Calls of the engine *)

Inductive engine_call : Type :=
  | call_info (video_url : string)
  | call_flat (channel_url : string) (playlist_items : option string)
  | call_download (video_url quality : option string) (output_path : string).

(** An engine together with the log of the calls made to it, latest last. *)
Definition logged {W} (eng : Engine W) : Engine (W * list engine_call) :=
  {| extract_info := λ u s,
       match extract_info eng u s.1 with
       | (r, w') => (r, (w', s.2 ++ [call_info u]))
       end;
     extract_flat := λ u hint s,
       match extract_flat eng u hint s.1 with
       | (r, w') => (r, (w', s.2 ++ [call_flat u hint]))
       end;
     run_download := λ u q path s,
       match run_download eng u q path s.1 with
       | (reports, r, w') => (reports, r, (w', s.2 ++ [call_download u q path]))
       end;
     prepare_filename := prepare_filename eng |}.

(** A computation that leaves the world as it found it. *)
Definition keeps_world {W A} (m : M W A) : Prop :=
  ∀ w, world_after m w = w.

(** The output path of the downloads of the web handlers. *)
Definition web_output_path : string := "downloads/%(title)s.%(ext)s".

(** Three videos whose downloads all succeed with [flaky_engine]. *)
Definition three_sound : list BatchVideo :=
  [batch_video "https://example.org/a" "A";
   batch_video "https://example.org/b" "B";
   batch_video "https://example.org/c" "C"].

(** The lines of the terminal flow: the only events that carry counts. *)
Definition is_report (e : event) : bool :=
  match e with console _ => true | _ => false end.

(** The events of the terminal flow: its lines, the refreshes of its
    progress bar and the diagnostics of the downloader. *)
Definition terminal_flow_event (e : event) : Prop :=
  match e with
  | console _ | progress_update _ _ | stdout _ => True
  | _ => False
  end.

(** A start request for the URL whose download raises. *)
Definition broken_request : StartDownload :=
  {| sd_url := Val "https://example.org/broken";
     sd_quality := Val "best";
     sd_id := Val "job-2" |}.

(** * Properties *)

(** ** Formatting *)

Lemma two_digits_form (n : Z) :
  0 ≤ n < 100 → two_digit_string (two_digits n) = true.
Proof.
  intros Hn.
  assert (Hall : forallb (λ i, two_digit_string (two_digits (Z.of_nat i)))
                   (seq 0 100) = true) by (vm_compute; reflexivity).
  rewrite forallb_forall in Hall.
  specialize (Hall (Z.to_nat n)).
  rewrite Z2Nat.id in Hall by lia.
  apply Hall, in_seq. lia.
Qed.

Lemma round_half_even_nonneg (q : Q) : (0 <= q)%Q → 0 ≤ round_half_even q.
Proof.
  destruct q as [n d]. unfold Qle, round_half_even. simpl. intros Hq.
  assert (0 ≤ n / Z.pos d) by (apply Z.div_pos; lia).
  repeat case_match; lia.
Qed.

Lemma fmt_2f_form (q : Q) : (0 <= q)%Q → two_decimals (fmt_2f q).
Proof.
  intros Hq. unfold fmt_2f.
  assert (Hb : Qle_bool 0 q = true) by (by apply Qle_bool_iff).
  rewrite Hb.
  set (r := round_half_even (Qabs q * 100)).
  assert (Hr : 0 ≤ r).
  { apply round_half_even_nonneg. apply Qmult_le_0_compat; [apply Qabs_nonneg | done]. }
  assert (Hd : two_digit_string (two_digits (r mod 100)) = true).
  { apply two_digits_form. pose proof (Z.mod_pos_bound r 100). lia. }
  destruct (two_digits (r mod 100)) as [|d1 [|d2 [|c s]]];
    simpl in Hd; try discriminate.
  apply andb_prop in Hd as [H1 H2].
  exists (r / 100), d1, d2.
  repeat split; try done.
  apply Z.div_pos; lia.
Qed.

Lemma pow1024_pos (k : nat) : (0 < inject_Z (1024 ^ Z.of_nat k))%Q.
Proof.
  change 0%Q with (inject_Z 0). rewrite <- Zlt_Qlt.
  apply Z.pow_pos_nonneg; lia.
Qed.

Lemma pow1024_S (k : nat) :
  (inject_Z (1024 ^ Z.of_nat (S k)) == 1024 * inject_Z (1024 ^ Z.of_nat k))%Q.
Proof.
  rewrite Nat2Z.inj_succ, Z.pow_succ_r by lia.
  rewrite inject_Z_mult. reflexivity.
Qed.

Lemma le_div_1024 (c v : Q) : (c <= v / 1024)%Q ↔ (c * 1024 <= v)%Q.
Proof.
  split; intros H.
  - apply (Qmult_le_compat_r _ _ 1024) in H; [|done].
    eapply Qle_trans; [exact H|].
    apply Qle_lteq; right. field.
  - apply Qle_shift_div_l; done.
Qed.

Lemma le_scaled (k : nat) (c q : Q) :
  (c <= scaled k q)%Q ↔ (c * inject_Z (1024 ^ Z.of_nat k) <= q)%Q.
Proof.
  revert c. induction k as [|k IH]; intros c.
  - simpl. change (inject_Z 1) with 1%Q. by rewrite Qmult_1_r.
  - change (scaled (S k) q) with (scaled k q / 1024)%Q.
    rewrite le_div_1024, IH, pow1024_S, Qmult_assoc. reflexivity.
Qed.

Lemma scaled_eq (k : nat) (q : Q) :
  (scaled k q == q / inject_Z (1024 ^ Z.of_nat k))%Q.
Proof.
  induction k as [|k IH].
  - simpl. change (inject_Z 1) with 1%Q. unfold Qdiv.
    change (/ 1)%Q with 1%Q. by rewrite Qmult_1_r.
  - change (scaled (S k) q) with (scaled k q / 1024)%Q.
    rewrite IH, pow1024_S. pose proof (pow1024_pos k) as Hp.
    field. intros H0. rewrite H0 in Hp.
    by apply Qlt_irrefl in Hp.
Qed.

Lemma scaled_nonneg (k : nat) (q : Q) : (0 <= q)%Q → (0 <= scaled k q)%Q.
Proof. intros Hq. apply le_scaled. by rewrite Qmult_0_l. Qed.

Lemma test_true (k : nat) (q : Q) :
  Qle_bool 1024 (scaled k q) = true →
  (inject_Z (1024 ^ Z.of_nat (S k)) <= q)%Q.
Proof.
  intros H. apply Qle_bool_iff, le_scaled in H.
  by rewrite pow1024_S.
Qed.

Lemma test_false (k : nat) (q : Q) :
  Qle_bool 1024 (scaled k q) = false →
  (q < inject_Z (1024 ^ Z.of_nat (S k)))%Q.
Proof.
  intros H. apply Qnot_le_lt. intros Hle.
  rewrite pow1024_S in Hle. apply le_scaled, Qle_bool_iff in Hle. congruence.
Qed.

(** C9.  For a non-negative value [format_bytes] prints the value divided
    by [1024^k], with two decimals, a space and the [k]-th unit of B, KB,
    MB, GB, TB, where [k] counts the factors of 1024 in the value and
    stops at 4; 500 gives "500.00 B", 1536 gives "1.50 KB" and 1024^4
    gives "1.00 TB". *)
Theorem format_bytes_unit_ladder :
  (∀ q : Q, (0 <= q)%Q →
     ∃ k : nat,
       (k ≤ 4)%nat
       ∧ format_bytes q = fmt_2f (scaled k q) +:+ " " +:+ unit_name k
       ∧ two_decimals (fmt_2f (scaled k q))
       ∧ (scaled k q == q / inject_Z (1024 ^ Z.of_nat k))%Q
       ∧ ((0 < k)%nat → (inject_Z (1024 ^ Z.of_nat k) <= q)%Q)
       ∧ ((k < 4)%nat → (q < inject_Z (1024 ^ Z.of_nat (S k)))%Q))
  ∧ format_bytes (inject_Z 500) = "500.00 B"
  ∧ format_bytes (inject_Z 1536) = "1.50 KB"
  ∧ format_bytes (inject_Z (1024 ^ 4)) = "1.00 TB".
Proof.
  split; [|by vm_compute].
  intros q Hq.
  assert (Hform : ∀ k, two_decimals (fmt_2f (scaled k q)))
    by (intros k; by apply fmt_2f_form, scaled_nonneg).
  unfold format_bytes, byte_units, format_bytes_loop.
  destruct (Qle_bool 1024 q) eqn:T0; simpl negb; cbv iota.
  2:{ exists 0%nat. split_and!; [lia|done|done|apply scaled_eq|intros ?; lia|].
      intros _. exact (test_false 0 q T0). }
  destruct (Qle_bool 1024 (q / 1024)) eqn:T1; simpl negb; cbv iota.
  2:{ exists 1%nat. split_and!; [lia|done|done|apply scaled_eq| |].
      - intros _. exact (test_true 0 q T0).
      - intros _. exact (test_false 1 q T1). }
  destruct (Qle_bool 1024 (q / 1024 / 1024)) eqn:T2; simpl negb; cbv iota.
  2:{ exists 2%nat. split_and!; [lia|done|done|apply scaled_eq| |].
      - intros _. exact (test_true 1 q T1).
      - intros _. exact (test_false 2 q T2). }
  destruct (Qle_bool 1024 (q / 1024 / 1024 / 1024)) eqn:T3;
    simpl negb; cbv iota.
  2:{ exists 3%nat. split_and!; [lia|done|done|apply scaled_eq| |].
      - intros _. exact (test_true 2 q T2).
      - intros _. exact (test_false 3 q T3). }
  exists 4%nat. split_and!; [lia|done|done|apply scaled_eq| |intros ?; lia].
  intros _. exact (test_true 3 q T3).
Qed.

Lemma format_bytes_unit_ladder_witness :
  (0 <= inject_Z 1536)%Q
  ∧ ∃ k : nat,
      (k ≤ 4)%nat
      ∧ format_bytes (inject_Z 1536)
        = fmt_2f (scaled k (inject_Z 1536)) +:+ " " +:+ unit_name k
      ∧ two_decimals (fmt_2f (scaled k (inject_Z 1536)))
      ∧ (scaled k (inject_Z 1536)
         == inject_Z 1536 / inject_Z (1024 ^ Z.of_nat k))%Q
      ∧ ((0 < k)%nat → (inject_Z (1024 ^ Z.of_nat k) <= inject_Z 1536)%Q)
      ∧ ((k < 4)%nat → (inject_Z 1536 < inject_Z (1024 ^ Z.of_nat (S k)))%Q).
Proof.
  split; [unfold Qle; simpl; lia|].
  apply (proj1 format_bytes_unit_ladder (inject_Z 1536)).
  unfold Qle; simpl; lia.
Defined.

(** ** Progress normalisation *)

Lemma total_of_unknown (d : RawProgress) :
  truthy_Z (get (d_total_bytes d)) = false →
  truthy_Z (get (d_total_bytes_estimate d)) = false →
  total_of d = 0.
Proof. unfold total_of, or_Z. by intros -> ->. Qed.

Lemma percent_of_bounds (n total : Z) :
  0 ≤ n ≤ total → 0 < total →
  (0 <= inject_Z n / inject_Z total * 100 <= 100)%Q.
Proof.
  intros [Hn Hle] Ht.
  assert (Hq : (0 < inject_Z total)%Q)
    by (change 0%Q with (inject_Z 0); by rewrite <- Zlt_Qlt).
  split.
  - apply Qmult_le_0_compat; [|done].
    apply Qle_shift_div_l; [done|]. rewrite Qmult_0_l.
    change 0%Q with (inject_Z 0). by rewrite <- Zle_Qle.
  - apply Qle_trans with (1 * 100)%Q; [|apply Qle_refl].
    apply Qmult_le_compat_r; [|done].
    apply Qle_shift_div_r; [done|]. rewrite Qmult_1_l.
    by rewrite <- Zle_Qle.
Qed.

(** C3, the claim as stated, fails: 200 bytes received out of a total of
    100 give the percent 200, which is outside [0,100]. *)
Lemma percent_exceeds_100 :
  ∃ p : DownloadProgress,
    normalize overshoot_report = Ok p
    ∧ downloaded_bytes p = Some 200 ∧ total_bytes p = 100
    ∧ (percent p == 200)%Q ∧ ¬ (percent p <= 100)%Q.
Proof.
  eexists. split; [reflexivity|].
  split_and!; [done|done|by vm_compute|].
  vm_compute. intros H. by apply H.
Qed.

(** C3, amended.  The percent of a normalised report is
    [downloaded / total * 100] when the total is positive and 0 when the
    total is zero, unknown or negative, and no report with a non-positive
    total raises; the percent lies in [0,100] whenever
    [0 <= downloaded <= total]. *)
Theorem percent_of_report (d : RawProgress) :
  (total_of d ≤ 0 →
     ∃ p, normalize d = Ok p ∧ total_bytes p = total_of d ∧ percent p = 0%Q)
  ∧ (∀ n, 0 < total_of d → get_or 0 (d_downloaded_bytes d) = Some n →
       ∃ p, normalize d = Ok p ∧ total_bytes p = total_of d
            ∧ downloaded_bytes p = Some n
            ∧ percent p = (inject_Z n / inject_Z (total_of d) * 100)%Q
            ∧ (0 ≤ n ≤ total_of d → (0 <= percent p <= 100)%Q))
  ∧ (truthy_Z (get (d_total_bytes d)) = false →
     truthy_Z (get (d_total_bytes_estimate d)) = false →
     total_of d = 0).
Proof.
  split_and!.
  - intros Ht. unfold normalize, percent_of.
    destruct (0 <? total_of d) eqn:E; [apply Z.ltb_lt in E; lia|].
    eexists. split; [reflexivity|]. done.
  - intros n Ht Hn. unfold normalize, percent_of.
    rewrite Hn. apply Z.ltb_lt in Ht as Ht'. rewrite Ht'.
    eexists. split; [reflexivity|]. simpl. split_and!; try done.
    intros Hb. by apply percent_of_bounds.
  - apply total_of_unknown.
Qed.

Lemma percent_of_report_witness :
  ∃ p, normalize quarter_report = Ok p ∧ total_bytes p = 200
       ∧ downloaded_bytes p = Some 50
       ∧ percent p = (inject_Z 50 / inject_Z 200 * 100)%Q
       ∧ (0 ≤ 50 ≤ 200 → (0 <= percent p <= 100)%Q).
Proof.
  apply (proj1 (proj2 (percent_of_report quarter_report)) 50).
  - reflexivity.
  - reflexivity.
Defined.

(** ** Quality options *)

Lemma foldl_snoc_map {A B} (g : A → B) (l : list A) (init : list B) :
  foldl (λ acc x, acc ++ [g x]) init l = init ++ map g l.
Proof.
  revert init. induction l as [|x l IH]; intros init; simpl.
  - by rewrite app_nil_r.
  - rewrite IH, <- app_assoc. done.
Qed.

Lemma elem_of_collect_heights (fs : list FormatInfo) (s : gset Z) (h : Z) :
  h ∈ collect_heights fs s ↔
  h ∈ s ∨ ∃ f, f ∈ fs ∧ is_standard (height f) = true
               ∧ height f = Some h.
Proof.
  revert s. induction fs as [|f fs IH]; intros s; simpl.
  - split; [by left|]. intros [?|(f & Hf & _)]; [done|]. by apply elem_of_nil in Hf.
  - rewrite IH. destruct (is_standard (height f)) eqn:E.
    + assert (Hh : height f = Some (default 0 (height f))).
      { unfold is_standard, truthy_Z in E. by destruct (height f). }
      rewrite elem_of_union, elem_of_singleton. split.
      * intros [[->|?]|(f' & Hf' & ?)].
        -- right. exists f. split; [left|done].
        -- by left.
        -- right. exists f'. split; [by right|done].
      * intros [?|(f' & Hf' & Hs & Hv)]; [by left; right|].
        apply elem_of_cons in Hf' as [->|Hf'].
        -- left; left. rewrite Hv. done.
        -- right. by exists f'.
    + split.
      * intros [?|(f' & Hf' & ?)]; [by left|].
        right. exists f'. split; [by right|done].
      * intros [?|(f' & Hf' & Hs & Hv)]; [by left|].
        apply elem_of_cons in Hf' as [->|Hf']; [congruence|].
        right. by exists f'.
Qed.

Lemma is_standard_spec (o : option Z) (h : Z) :
  o = Some h → is_standard o = true ↔ h ∈ standard_heights.
Proof.
  intros ->. unfold is_standard, truthy_Z. simpl.
  rewrite andb_true_iff, bool_decide_eq_true, negb_true_iff, Z.eqb_neq.
  split; [by intros [_ ?]|]. intros Hin. split; [|done].
  intros ->. revert Hin. unfold standard_heights.
  rewrite !elem_of_cons, elem_of_nil. lia.
Qed.

Lemma sorted_reverse_strict (s : gset Z) :
  StronglySorted Z.gt (sorted_reverse s).
Proof.
  unfold sorted_reverse.
  assert (Hs : StronglySorted Z.ge (merge_sort Z.ge (elements s))).
  { apply StronglySorted_merge_sort.
    - intros x y z. lia.
    - intros x y. lia. }
  assert (Hd : NoDup (merge_sort Z.ge (elements s))).
  { rewrite merge_sort_Permutation. apply NoDup_elements. }
  induction Hs as [|x l Hl IH Hx]; [constructor|].
  apply NoDup_cons in Hd as [Hnx Hd].
  constructor; [by apply IH|].
  rewrite Forall_forall in Hx |- *. intros y Hy.
  specialize (Hx y Hy). assert (x ≠ y) by (intros ->; done). lia.
Qed.

Lemma elem_of_sorted_reverse (s : gset Z) (h : Z) :
  h ∈ sorted_reverse s ↔ h ∈ s.
Proof.
  unfold sorted_reverse. by rewrite merge_sort_Permutation, elem_of_elements.
Qed.

(** The list that [get_quality_options] builds from fetched metadata:
    the best-quality option, the standard heights that occur among the
    formats in strictly descending order, the two audio-only options. *)
Lemma quality_options_of_shape (info : VideoInfo) :
  ∃ hs : list Z,
    quality_options_of info
    = best_option :: map height_option hs
        ++ [audio_best_option; audio_m4a_option]
    ∧ StronglySorted Z.gt hs
    ∧ ∀ h, h ∈ hs ↔
        h ∈ standard_heights ∧ ∃ f, f ∈ formats info ∧ height f = Some h.
Proof.
  exists (sorted_reverse (collect_heights (formats info) ∅)).
  split_and!.
  - unfold quality_options_of. rewrite foldl_snoc_map.
    simpl. by rewrite <- !app_assoc.
  - apply sorted_reverse_strict.
  - intros h. rewrite elem_of_sorted_reverse, elem_of_collect_heights.
    split.
    + intros [Hin|(f & Hf & Hs & Hh)]; [by apply not_elem_of_empty in Hin|].
      split; [by apply (is_standard_spec _ _ Hh)|by exists f].
    + intros [Hs (f & Hf & Hh)]. right. exists f.
      split_and!; [done| |done]. by apply (is_standard_spec _ _ Hh).
Qed.

Lemma get_quality_options_run {W} (eng : Engine W) (url : string) (w : W) :
  get_quality_options eng url w
  = match get_video_info eng url w with
    | (t, Ok (Some info), w') => (t, Ok (quality_options_of info), w')
    | (t, Ok None, w') => (t, Ok [], w')
    | (t, Raise e, w') => (t, Raise e, w')
    end.
Proof.
  unfold get_quality_options, mbind, M_bind, bind.
  destruct (get_video_info eng url w) as [[t [[info|]|e]] w']; simpl;
    by rewrite ?app_nil_r.
Qed.

Lemma height_option_distinct (h : Z) :
  height_option h ≠ best_option
  ∧ height_option h ≠ audio_best_option
  ∧ height_option h ≠ audio_m4a_option.
Proof.
  split_and!; intros H; apply (f_equal opt_id) in H; simpl in H;
    discriminate.
Qed.

(** C2.  When the metadata fetch succeeds with at least one format,
    [get_quality_options] returns the best-quality option first, then one
    option for each standard height that occurs among the formats, in
    strictly descending order of height (hence without repetition), then
    the two audio-only options; only the first entry is the best-quality
    option and only the last two are audio-only.  Heights 1080, 720, 2160,
    720 give best, 2160p, 1080p, 720p and the two audio-only options. *)
Theorem quality_ladder {W} (eng : Engine W) (url : string) (w w' : W)
    (t : list event) (info : VideoInfo) :
  get_video_info eng url w = (t, Ok (Some info), w') →
  formats info ≠ [] →
  (∃ hs : list Z,
     get_quality_options eng url w
     = (t, Ok (best_option :: map height_option hs
                 ++ [audio_best_option; audio_m4a_option]), w')
     ∧ StronglySorted Z.gt hs
     ∧ (∀ h, h ∈ hs ↔
          h ∈ standard_heights ∧ ∃ f, f ∈ formats info ∧ height f = Some h)
     ∧ Forall (λ o, o ≠ best_option ∧ o ≠ audio_best_option
                    ∧ o ≠ audio_m4a_option) (map height_option hs)
     ∧ audio_best_option ≠ best_option ∧ audio_m4a_option ≠ best_option)
  ∧ (map height (formats info) = [Some 1080; Some 720; Some 2160; Some 720] →
     get_quality_options eng url w
     = (t, Ok [best_option; height_option 2160; height_option 1080;
               height_option 720; audio_best_option; audio_m4a_option], w')
     ∧ map opt_label [height_option 2160; height_option 1080;
                      height_option 720]
       = ["2160p (Video + Audio)"; "1080p (Video + Audio)";
          "720p (Video + Audio)"]).
Proof.
  intros Hfetch _. rewrite get_quality_options_run, Hfetch. split.
  - destruct (quality_options_of_shape info) as (hs & -> & Hsorted & Hmem).
    exists hs. split_and!; try done.
    apply Forall_forall. intros o Ho.
    apply list_elem_of_fmap in Ho as (h & -> & _).
    apply height_option_distinct.
  - intros Hheights. split; [|by vm_compute].
    destruct (formats info) as [|f1 [|f2 [|f3 [|f4 [|f5 fs]]]]] eqn:Hfs;
      try discriminate.
    simpl in Hheights.
    injection Hheights as H1 H2 H3 H4.
    do 3 f_equal. unfold quality_options_of. rewrite Hfs.
    unfold collect_heights. rewrite H1, H2, H3, H4.
    by vm_compute.
Qed.

Lemma quality_ladder_witness :
  ∃ info : VideoInfo,
    get_video_info ladder_engine "https://example.org/v" []
    = ([], Ok (Some info), [])
    ∧ formats info ≠ []
    ∧ get_quality_options ladder_engine "https://example.org/v" []
      = ([], Ok [best_option; height_option 2160; height_option 1080;
                 height_option 720; audio_best_option; audio_m4a_option], []).
Proof.
  eexists. split; [reflexivity|]. split; [discriminate|].
  refine (proj1 (proj2 (quality_ladder ladder_engine "https://example.org/v"
                          [] [] [] _ _ _) _)).
  - reflexivity.
  - discriminate.
  - reflexivity.
Defined.

(** C4, the claim as stated, fails: for metadata fetched with no format
    at all the listing is not empty, it holds the three fixed options. *)
Lemma no_format_listing_not_empty :
  ∃ info : VideoInfo,
    get_video_info formatless_engine "https://example.org/v" []
    = ([], Ok (Some info), [])
    ∧ formats info = []
    ∧ get_quality_options formatless_engine "https://example.org/v" []
      = ([], Ok [best_option; audio_best_option; audio_m4a_option], [])
    ∧ [best_option; audio_best_option; audio_m4a_option] ≠ [].
Proof.
  eexists. split; [reflexivity|]. split; [reflexivity|].
  split; [reflexivity|discriminate].
Qed.

(** C4, amended.  When the metadata fetch succeeds and yields no format,
    [get_quality_options] returns, without an error, the best-quality
    option followed by the two audio-only options; it returns the empty
    list when the fetch yields nothing. *)
Theorem quality_options_without_formats {W} (eng : Engine W) (url : string)
    (w w' : W) (t : list event) :
  (∀ info, get_video_info eng url w = (t, Ok (Some info), w') →
     formats info = [] →
     get_quality_options eng url w
     = (t, Ok [best_option; audio_best_option; audio_m4a_option], w'))
  ∧ (get_video_info eng url w = (t, Ok None, w') →
     get_quality_options eng url w = (t, Ok [], w')).
Proof.
  split.
  - intros info Hfetch Hnone. rewrite get_quality_options_run, Hfetch.
    unfold quality_options_of. rewrite Hnone. by vm_compute.
  - intros Hfetch. by rewrite get_quality_options_run, Hfetch.
Qed.

Lemma quality_options_without_formats_witness :
  get_quality_options formatless_engine "https://example.org/v" []
  = ([], Ok [best_option; audio_best_option; audio_m4a_option], []).
Proof.
  eapply (proj1 (quality_options_without_formats formatless_engine
                   "https://example.org/v" [] [] [])).
  - reflexivity.
  - reflexivity.
Defined.

(** ** The adapter boundary *)

Lemma try_except_returns {W A} (m : M W A) (h : exn → M W A) (w : W) :
  (∀ e w1, returns (h e) w1) → returns (try_except m h) w.
Proof.
  intros Hh. unfold returns, try_except.
  destruct (m w) as [[t [a|e]] w1]; [by eauto|].
  destruct (Hh e w1) as (t2 & a & w2 & ->). eauto.
Qed.

Lemma report_and_return {W A} (line : string) (a : A) (w : W) :
  (emit (stdout line);; ret a) w = ([stdout line], Ok a, w).
Proof. reflexivity. Qed.

Lemma get_video_info_returns {W} (eng : Engine W) (url : string) (w : W) :
  returns (get_video_info eng url) w.
Proof.
  apply try_except_returns. intros e w1. do 3 eexists. apply report_and_return.
Qed.

Lemma download_video_returns {W} (eng : Engine W) (self : VideoDownloader W)
    (url quality filename_template : option string) (w : W) :
  returns (download_video eng self url quality filename_template) w.
Proof.
  apply try_except_returns. intros e w1. do 3 eexists. apply report_and_return.
Qed.

Lemma download_video_result {W} (eng : Engine W) (self : VideoDownloader W)
    (url quality filename_template : option string) (w : W) :
  ∃ t result w',
    download_video eng self url quality filename_template w
    = (t, Ok result, w').
Proof. apply download_video_returns. Qed.

Lemma get_channel_videos_returns {W} (eng : Engine W) (url : string)
    (max_videos : option Z) (w : W) :
  returns (get_channel_videos eng url max_videos) w.
Proof.
  unfold returns, get_channel_videos.
  destruct (channel_try eng url max_videos w) as [[[[r|]|e] videos] w'];
    eauto.
Qed.



(** ** Playlist listing *)

Lemma length_omap_le {A B} (f : A → option B) (l : list A) :
  (length (omap f l) ≤ length l)%nat.
Proof.
  induction l as [|x l IH]; [simpl; lia|].
  cbn. destruct (f x); cbn; fold (omap f l); lia.
Qed.

Lemma collect_videos_capped (max i : Z) (es : list (option EntryDict))
    (fail : option exn) (acc : list Video) :
  0 < max → 0 ≤ i ≤ max →
  (collect_videos (Some max) i es fail acc).1
  = acc ++ (video_of <$> omap id (take (Z.to_nat (max - i)) es)).
Proof.
  intros Hmax. revert i acc.
  induction es as [|entry rest IH]; intros i acc Hi; simpl.
  - by rewrite take_nil, app_nil_r.
  - assert (Hz : (max =? 0) = false) by (apply Z.eqb_neq; lia).
    rewrite Hz. simpl.
    destruct (max <=? i) eqn:Hcmp.
    + apply Z.leb_le in Hcmp. replace (max - i) with 0 by lia.
      simpl. by rewrite app_nil_r.
    + apply Z.leb_gt in Hcmp.
      replace (Z.to_nat (max - i)) with (S (Z.to_nat (max - (i + 1)))) by lia.
      rewrite IH by lia. simpl.
      destruct entry as [entry|]; simpl; [|done].
      by rewrite <- app_assoc.
Qed.

Lemma collect_videos_uncapped (max_videos : option Z) (i : Z)
    (es : list (option EntryDict)) (fail : option exn) (acc : list Video) :
  truthy_Z max_videos = false →
  collect_videos max_videos i es fail acc
  = (acc ++ (video_of <$> omap id es), fail).
Proof.
  intros Hmax. revert i acc.
  induction es as [|entry rest IH]; intros i acc; simpl.
  - by rewrite app_nil_r.
  - rewrite Hmax. simpl. rewrite IH.
    destruct entry as [entry|]; simpl; [|done].
    by rewrite <- app_assoc.
Qed.

(** What [get_channel_videos] returns once the engine has produced a
    listing. *)
Lemma get_channel_videos_listing {W} (eng : Engine W) (url : string)
    (max_videos : option Z) (w w1 : W) (info : FlatInfo) (es : Entries) :
  extract_flat eng url (playlist_items_of max_videos) w
  = (Ok (Some info), w1) →
  get_or no_entries (entries info) = Some es →
  ∃ t,
    get_channel_videos eng url max_videos w
    = (t, Ok (collect_videos max_videos 0 (items es) (failure es) []).1, w1).
Proof.
  intros He Hes. unfold get_channel_videos, channel_try.
  rewrite He, Hes.
  destruct (collect_videos max_videos 0 (items es) (failure es) [])
    as [videos [e|]]; simpl; eauto.
Qed.

(** C8, the claim as stated, fails: with the maximum 0 the five entries
    of the source listing are all returned. *)
Lemma zero_maximum_is_no_maximum :
  ∃ videos : list Video,
    get_channel_videos playlist_engine "https://example.org/c" (Some 0) []
    = ([], Ok videos, [])
    ∧ length videos = 5%nat
    ∧ ¬ (Z.of_nat (length videos) ≤ 0).
Proof.
  eexists. split; [reflexivity|]. split; [reflexivity|]. simpl. lia.
Qed.

(** C8, amended.  For a positive maximum [get_channel_videos] returns at
    most that many entries: the non-null ones among the first [max]
    entries of the engine's listing, in the order of the listing; asking
    for 2 out of a listing of five non-null entries gives the first two.
    (A maximum of 0 is read as no maximum.) *)
Theorem playlist_listing_capped {W} (eng : Engine W) (url : string)
    (max : Z) (w : W) :
  0 < max →
  ∃ t videos w',
    get_channel_videos eng url (Some max) w = (t, Ok videos, w')
    ∧ Z.of_nat (length videos) ≤ max
    ∧ (∀ info es w1,
         extract_flat eng url (Some ("1:" +:+ pretty max)) w
         = (Ok (Some info), w1) →
         get_or no_entries (entries info) = Some es →
         videos = video_of <$> omap id (take (Z.to_nat max) (items es))
         ∧ (max = 2 →
            ∀ e1 e2 e3 e4 e5,
              items es = [Some e1; Some e2; Some e3; Some e4; Some e5] →
              videos = [video_of e1; video_of e2])).
Proof.
  intros Hmax.
  assert (Hitems : playlist_items_of (Some max) = Some ("1:" +:+ pretty max)).
  { unfold playlist_items_of. simpl.
    assert (Hz : (max =? 0) = false) by (apply Z.eqb_neq; lia).
    by rewrite Hz. }
  destruct (extract_flat eng url (Some ("1:" +:+ pretty max)) w)
    as [[[info|]|e] w1] eqn:He.
  - destruct (get_or no_entries (entries info)) as [es|] eqn:Hes.
    + destruct (get_channel_videos_listing eng url (Some max) w w1 info es)
        as [t Hrun]; [by rewrite Hitems|done|].
      rewrite collect_videos_capped in Hrun by lia.
      rewrite Z.sub_0_r in Hrun. simpl in Hrun.
      eexists _, _, _. split; [exact Hrun|]. split.
      * rewrite length_fmap.
        pose proof (length_omap_le id (take (Z.to_nat max) (items es))).
        pose proof (length_take_le (items es) (Z.to_nat max)).
        rewrite length_take in *. lia.
      * intros info' es' w1' Heq Hes'.
        assert (es' = es) by congruence. subst es'.
        split; [done|]. intros -> e1 e2 e3 e4 e5 ->. done.
    + eexists _, [], _. split_and!.
      * unfold get_channel_videos, channel_try. by rewrite Hitems, He, Hes.
      * simpl. lia.
      * intros info' es' w1' Heq Hes'. congruence.
  - eexists _, [], _. split_and!.
    + unfold get_channel_videos, channel_try. by rewrite Hitems, He.
    + simpl. lia.
    + intros info' es' w1' Heq. discriminate.
  - eexists _, [], _. split_and!.
    + unfold get_channel_videos, channel_try. by rewrite Hitems, He.
    + simpl. lia.
    + intros info' es' w1' Heq. discriminate.
Qed.

Lemma playlist_listing_capped_witness :
  0 < 2
  ∧ ∃ t videos w',
      get_channel_videos playlist_engine "https://example.org/c" (Some 2) []
      = (t, Ok videos, w')
      ∧ Z.of_nat (length videos) ≤ 2
      ∧ videos = [video_of (sample_entry "a"); video_of (sample_entry "b")].
Proof.
  split; [lia|].
  destruct (playlist_listing_capped playlist_engine "https://example.org/c"
              2 [] ltac:(lia)) as (t & videos & w' & Hrun & Hlen & Hsrc).
  exists t, videos, w'. split_and!; [done|done|].
  destruct (Hsrc five_entries _ [] eq_refl eq_refl) as [_ Htwo].
  exact (Htwo eq_refl _ _ _ _ _ eq_refl).
Defined.

(** ** Traces of a download *)

Lemma bind_run {W A B} (m : M W A) (k : A → M W B) (w : W) :
  (m ≫= k) w
  = match m w with
    | (t1, Ok a, w1) =>
        match k a w1 with (t2, r, w2) => (t1 ++ t2, r, w2) end
    | (t1, Raise e, w1) => (t1, Raise e, w1)
    end.
Proof. reflexivity. Qed.

Section DownloadTrace.
Context {W : Type} (eng : Engine W) (P : event → Prop).
Context (self : VideoDownloader W).
Hypothesis P_stdout : ∀ line, P (stdout line).
Hypothesis P_callback :
  ∀ callback, _progress_callback self = Some callback →
    ∀ p w, Forall P (trace_of (callback p) w).

Lemma progress_hook_trace (d : RawProgress) (w : W) :
  Forall P (trace_of (_progress_hook self d) w).
Proof using P_callback.
  unfold _progress_hook.
  destruct (_progress_callback self) as [callback|] eqn:Hcb;
    [|by constructor].
  unfold trace_of. rewrite bind_run.
  destruct (normalize d) as [p|e]; simpl; [|by constructor].
  specialize (P_callback callback eq_refl p w). unfold trace_of in P_callback.
  by destruct (callback p w) as [[t r] w'].
Qed.

Lemma hooks_trace (reports : list RawProgress) (w : W) :
  Forall P (trace_of (for_each (_progress_hook self) reports) w).
Proof using P_callback.
  revert w. induction reports as [|d reports IH]; intros w;
    [by constructor|].
  unfold trace_of. simpl. rewrite bind_run.
  pose proof (progress_hook_trace d w) as Hd. unfold trace_of in Hd.
  destruct (_progress_hook self d w) as [[t1 [[]|e]] w1]; simpl in *;
    [|done].
  specialize (IH w1). unfold trace_of in IH.
  destruct (for_each (_progress_hook self) reports w1) as [[t2 r] w2].
  simpl in *. by apply Forall_app.
Qed.

Lemma download_video_trace (url quality filename_template : option string)
    (w : W) :
  Forall P
    (trace_of (download_video eng self url quality filename_template) w).
Proof using P_stdout P_callback.
  unfold trace_of, download_video, try_except. rewrite bind_run.
  unfold extract_info_download.
  destruct (run_download eng url quality
              (output_path_of self filename_template) w)
    as [[reports r] w1].
  rewrite bind_run.
  pose proof (hooks_trace reports w1) as Hh. unfold trace_of in Hh.
  destruct (for_each (_progress_hook self) reports w1)
    as [[t1 [[]|e1]] w2]; simpl in *.
  - destruct r as [[info|]|e]; simpl.
    + destruct (prepare_filename eng _ info) as [name|e]; simpl;
        rewrite ?app_nil_r; [done|].
      apply Forall_app. split; [done|]. repeat constructor. apply P_stdout.
    + by rewrite ?app_nil_r.
    + rewrite ?app_nil_r. apply Forall_app. split; [done|].
      repeat constructor. apply P_stdout.
  - apply Forall_app. split; [done|]. repeat constructor. apply P_stdout.
Qed.
End DownloadTrace.

(** ** One job *)

Lemma progress_callback_quiet {W} (id : option string) (p : DownloadProgress)
    (w : W) :
  Forall (λ e, is_terminal e = false) (trace_of (progress_callback id p) w).
Proof.
  unfold trace_of, progress_callback. rewrite bind_run.
  destruct (downloaded_bytes p); simpl; repeat constructor.
Qed.

Lemma do_download_run {W} (eng : Engine W) (url quality id : option string)
    (w : W) :
  ∃ t result w',
    download_video eng (local_downloader (progress_callback id))
      url quality None w = (t, Ok result, w')
    ∧ do_download eng url quality id w
      = (t ++ [terminal_of id result], Ok (), w').
Proof.
  destruct (download_video_result eng (local_downloader (progress_callback id))
              url quality None w) as (t & result & w' & Hrun).
  exists t, result, w'. split; [done|].
  unfold do_download, try_except. rewrite bind_run, Hrun.
  unfold terminal_of. by destruct (truthy_str result).
Qed.

Lemma terminal_of_terminal (id result : option string) :
  is_terminal (terminal_of id result) = true.
Proof. unfold terminal_of. by destruct (truthy_str result). Qed.

(** C6, the claim as stated, fails: the completion event of a download
    whose result path is "downloads/Clip.mp4" carries "Clip.mp4", not the
    path, and the error event of a download on which the engine raised
    "HTTP Error 404" carries "Download failed": the message of the engine
    is only printed. *)
Lemma terminal_event_payloads :
  result_of (download_video flaky_engine
               (local_downloader (progress_callback (Some "job-1")))
               (Some "https://example.org/a") (Some "best") None) []
  = Ok (Some "downloads/Clip.mp4")
  ∧ List.filter is_terminal
      (trace_of (run_request (handle_download flaky_engine start_request)) [])
    = [download_complete (Some "job-1") "Clip.mp4"]
  ∧ "Clip.mp4" ≠ "downloads/Clip.mp4"
  ∧ trace_of (run_request (handle_download flaky_engine broken_request)) []
    = [download_started (Some "job-2");
       stdout "Error downloading video: HTTP Error 404";
       download_error (Some "job-2") "Download failed"]
  ∧ "Download failed" ≠ "HTTP Error 404".
Proof. split_and!; [by vm_compute|by vm_compute|done|by vm_compute|done]. Qed.

(** C6, amended.  The events of one download request end with exactly one
    terminal event: for an empty URL the only event is the error "URL is
    required"; otherwise [download_started] and the progress events of the
    download come first and the last event is [download_complete] with the
    base name of the result path when the download returned a path, and
    [download_error] with the fixed text "Download failed" when it did
    not.  No event before the last one is terminal and nothing follows
    it. *)
Theorem one_terminal_event_last {W} (eng : Engine W) (data : StartDownload)
    (w : W) :
  let url := get_or "" (sd_url data) in
  let quality := get_or "best" (sd_quality data) in
  let id := download_id_of data in
  ∃ pre last w',
    run_request (handle_download eng data) w = (pre ++ [last], Ok (), w')
    ∧ is_terminal last = true
    ∧ Forall (λ e, is_terminal e = false) pre
    ∧ List.filter is_terminal (pre ++ [last]) = [last]
    ∧ (truthy_str url = false →
       pre = [] ∧ last = download_error id "URL is required")
    ∧ (truthy_str url = true →
       ∃ t result,
         download_video eng (local_downloader (progress_callback id))
           url quality None w = (t, Ok result, w')
         ∧ pre = download_started id :: t
         ∧ last = terminal_of id result
         ∧ (truthy_str result = true →
            last = download_complete id (basename (default "" result)))
         ∧ (truthy_str result = false →
            last = download_error id "Download failed")).
Proof.
  intros url quality id.
  assert (Hfilter : ∀ pre last,
            Forall (λ e, is_terminal e = false) pre →
            is_terminal last = true →
            List.filter is_terminal (pre ++ [last]) = [last]).
  { intros pre last Hpre Hlast. rewrite List.filter_app. simpl.
    rewrite Hlast. replace (List.filter is_terminal pre) with (@nil event);
      [done|].
    induction Hpre as [|e l He _ IH]; [done|]. simpl. by rewrite He. }
  unfold run_request, handle_download. fold url quality id.
  destruct (truthy_str url) eqn:Hurl; simpl negb; cbv iota.
  - destruct (do_download_run eng url quality id w)
      as (t & result & w' & Hdl & Hrun).
    assert (Hpre : Forall (λ e, is_terminal e = false)
                     (download_started id :: t)).
    { constructor; [done|].
      replace t with (trace_of (download_video eng
                        (local_downloader (progress_callback id))
                        url quality None) w)
        by (unfold trace_of; by rewrite Hdl).
      apply download_video_trace; [done|].
      intros callback Hcb p w0. injection Hcb as <-.
      apply progress_callback_quiet. }
    exists (download_started id :: t), (terminal_of id result), w'.
    split_and!.
    + rewrite !bind_run. simpl. by rewrite Hrun.
    + apply terminal_of_terminal.
    + done.
    + apply Hfilter; [done|apply terminal_of_terminal].
    + discriminate.
    + intros _. exists t, result. unfold terminal_of.
      split_and!; try done; by intros ->.
  - exists [], (download_error id "URL is required"), w.
    split_and!; done.
Qed.

Lemma one_terminal_event_last_witness :
  ∃ pre,
    run_request (handle_download flaky_engine start_request) []
    = (pre ++ [download_complete (Some "job-1") "Clip.mp4"], Ok (),
       [Some "https://example.org/a"])
    ∧ Forall (λ e, is_terminal e = false) pre.
Proof.
  destruct (one_terminal_event_last flaky_engine start_request [])
    as (pre & last & w' & Hrun & _ & Hpre & _ & _ & Hok).
  destruct (Hok eq_refl) as (t & result & Hdl & -> & -> & _ & _).
  injection Hdl as <- <- <-.
  eexists. split; [exact Hrun|exact Hpre].
Defined.

(** C5, the claim as stated, fails: the same start request handled twice
    launches two downloads (the engine is asked twice for the URL) and
    both end with [download_complete]; no error is reported. *)
Lemma second_start_downloads_again :
  let twice :=
    run_request (handle_download flaky_engine start_request);;
    run_request (handle_download flaky_engine start_request) in
  world_after twice []
  = [Some "https://example.org/a"; Some "https://example.org/a"]
  ∧ List.filter is_terminal (trace_of twice [])
    = [download_complete (Some "job-1") "Clip.mp4";
       download_complete (Some "job-1") "Clip.mp4"]
  ∧ result_of twice [] = Ok ().
Proof. by vm_compute. Qed.

(** C5, amended.  The start handler keeps no state per job: a request
    with a non-empty URL emits [download_started] and spawns a download
    whatever happened before, also right after the same request has been
    handled and its download has run; only a request with an empty URL is
    refused, with the error "URL is required" and no download. *)
Theorem start_is_not_guarded {W} (eng : Engine W) (data : StartDownload)
    (w : W) :
  let url := get_or "" (sd_url data) in
  let quality := get_or "best" (sd_quality data) in
  let id := download_id_of data in
  (truthy_str url = true →
     handle_download eng data w
     = ([download_started id], Ok (Some (do_download eng url quality id)), w)
     ∧ ∃ t w1,
         (run_request (handle_download eng data);; handle_download eng data) w
         = (t ++ [download_started id],
            Ok (Some (do_download eng url quality id)), w1))
  ∧ (truthy_str url = false →
     handle_download eng data w
     = ([download_error id "URL is required"], Ok None, w)).
Proof.
  intros url quality id.
  assert (Hstart : truthy_str url = true → ∀ w0,
            handle_download eng data w0
            = ([download_started id],
               Ok (Some (do_download eng url quality id)), w0)).
  { intros Hurl w0. unfold handle_download. fold url quality id.
    by rewrite Hurl. }
  split.
  - intros Hurl. split; [by apply Hstart|].
    destruct (do_download_run eng url quality id w)
      as (t & result & w1 & _ & Hrun).
    exists (download_started id :: t ++ [terminal_of id result]), w1.
    unfold run_request. rewrite !bind_run, (Hstart Hurl w), Hrun.
    simpl. by rewrite (Hstart Hurl w1).
  - intros Hurl. unfold handle_download. fold url quality id.
    by rewrite Hurl.
Qed.

Lemma start_is_not_guarded_witness :
  ∃ t w1,
    (run_request (handle_download flaky_engine start_request);;
     handle_download flaky_engine start_request) []
    = (t ++ [download_started (Some "job-1")],
       Ok (Some (do_download flaky_engine (Some "https://example.org/a")
                   (Some "best") (Some "job-1"))), w1).
Proof.
  exact (proj2 (proj1 (start_is_not_guarded flaky_engine start_request [])
                  eq_refl)).
Defined.

(** ** Batches *)

(** C10.  For a batch request whose list of videos is empty (or absent)
    the only event is one [batch_complete] for the batch id: there is no
    [batch_progress], [download_progress] or [video_complete] event. *)
Theorem empty_batch_only_completes {W} (eng : Engine W) (data : StartBatch)
    (w : W) :
  get_or [] (sb_videos data) = Some [] →
  let batch_id := get_or "batch" (sb_batch_id data) in
  let run := run_request (handle_batch_download eng data) in
  run w = ([batch_complete batch_id], Ok (), w)
  ∧ List.filter is_batch_complete (trace_of run w) = [batch_complete batch_id]
  ∧ List.filter is_batch_progress (trace_of run w) = []
  ∧ List.filter is_progress (trace_of run w) = []
  ∧ List.filter is_video_complete (trace_of run w) = [].
Proof.
  intros Hvideos batch_id run.
  assert (Hrun : run w = ([batch_complete batch_id], Ok (), w)).
  { unfold run, run_request, handle_batch_download, do_batch_download.
    rewrite Hvideos. reflexivity. }
  unfold trace_of. rewrite Hrun. by split_and!.
Qed.

Lemma empty_batch_only_completes_witness :
  run_request
    (handle_batch_download flaky_engine
       {| sb_videos := Val []; sb_quality := Missing;
          sb_batch_id := Val "b1" |}) []
  = ([batch_complete (Some "b1")], Ok (), []).
Proof.
  exact (proj1 (empty_batch_only_completes flaky_engine
                  {| sb_videos := Val []; sb_quality := Missing;
                     sb_batch_id := Val "b1" |} [] eq_refl)).
Defined.

Lemma noise_filtered (f : event → bool) (t : list event) :
  (∀ e, is_download_noise e = true → f e = false) →
  Forall (λ e, is_download_noise e = true) t →
  List.filter f t = [].
Proof.
  intros Hf Ht. induction Ht as [|e t He _ IH]; [done|].
  simpl. by rewrite (Hf e He).
Qed.

Lemma batch_download_video_run {W} (eng : Engine W)
    (quality batch_id : option string) (i : nat) (video : BatchVideo) (w : W) :
  ∃ t result w',
    batch_download_video eng quality batch_id i video w = (t, Ok result, w')
    ∧ Forall (λ e, is_download_noise e = true) t.
Proof.
  unfold batch_download_video.
  set (self := local_downloader _).
  destruct (download_video_result eng self (get_or "" (bv_url video))
              quality None w) as (t & result & w' & Hrun).
  exists t, result, w'. split; [done|].
  replace t with (trace_of (download_video eng self
                    (get_or "" (bv_url video)) quality None) w)
    by (unfold trace_of; by rewrite Hrun).
  apply download_video_trace; [done|].
  intros callback Hcb p w0. injection Hcb as <-.
  repeat constructor.
Qed.

Lemma batch_body_run {W} (eng : Engine W) (quality batch_id : option string)
    (total i : nat) (video : BatchVideo) (w w1 : W) (t1 : list event)
    (result : option string) :
  batch_download_video eng quality batch_id i video w = (t1, Ok result, w1) →
  batch_body eng quality batch_id total (i, video) w
  = (batch_progress batch_id (i + 1) total (get_or "Unknown" (bv_title video))
       :: t1 ++ [video_complete batch_id (video_id_of batch_id i)
                   (bool_decide (result ≠ None))],
     Ok (), w1).
Proof.
  intros Hrun. unfold batch_body. rewrite bind_run. unfold emit at 1.
  rewrite bind_run, Hrun. reflexivity.
Qed.

Lemma for_each_cons {W A} (body : A → M W unit) (x : A) (xs : list A) :
  for_each body (x :: xs) = (body x ≫= λ _, for_each body xs).
Proof. reflexivity. Qed.

Lemma batch_loop_run {W} (eng : Engine W) (quality batch_id : option string)
    (total : nat) (videos : list BatchVideo) (i : nat) (w : W) :
  let results := batch_results eng quality batch_id i videos w in
  ∃ t w',
    for_each (batch_body eng quality batch_id total) (enumerate i videos) w
    = (t, Ok (), w')
    ∧ List.filter is_video_complete t = completions batch_id i results
    ∧ List.filter is_batch_complete t = []
    ∧ length (List.filter is_batch_progress t) = length videos
    ∧ length results = length videos
    ∧ List.filter is_report t = [].
Proof.
  revert i w. induction videos as [|video rest IH]; intros i w results.
  - exists [], w. by split_and!.
  - destruct (batch_download_video_run eng quality batch_id i video w)
      as (t1 & result & w1 & Hrun & Hnoise).
    destruct (IH (S i) w1)
      as (t2 & w2 & Hrest & Hvc & Hbc & Hbp & Hlen & Hrep).
    assert (Hresults :
              results
              = result :: batch_results eng quality batch_id (S i) rest w1).
    { unfold results. simpl. by rewrite Hrun. }
    rewrite Hresults. clear Hresults results.
    change (enumerate i (video :: rest))
      with ((i, video) :: enumerate (S i) rest).
    rewrite for_each_cons, bind_run.
    rewrite (batch_body_run _ _ _ total _ _ _ _ _ _ Hrun), Hrest.
    eexists _, w2. split; [reflexivity|].
    split_and!.
    + simpl. rewrite !List.filter_app. simpl.
      rewrite (noise_filtered is_video_complete t1), Hvc; [done| |done].
      by intros [].
    + simpl. rewrite !List.filter_app. simpl.
      rewrite (noise_filtered is_batch_complete t1), Hbc; [done| |done].
      by intros [].
    + simpl. rewrite !List.filter_app. simpl.
      rewrite (noise_filtered is_batch_progress t1); [|by intros []|done].
      simpl. by rewrite Hbp.
    + simpl. by rewrite Hlen.
    + simpl. rewrite !List.filter_app. simpl.
      rewrite (noise_filtered is_report t1), Hrep; [done| |done].
      by intros [].
Qed.

Lemma cli_results_callback {W} (eng : Engine W) (downloader : VideoDownloader W)
    (quality : string) (videos : list Video) (w : W) :
  cli_results eng (set_progress_callback downloader update_progress)
    quality videos w
  = cli_results eng downloader quality videos w.
Proof.
  revert w. induction videos as [|video rest IH]; intros w; [done|].
  simpl.
  change (set_progress_callback
            (set_progress_callback downloader update_progress)
            update_progress)
    with (set_progress_callback downloader update_progress).
  destruct (download_video eng _ (v_url video) (Some quality) None w)
    as [[t [result|e]] w']; by rewrite IH.
Qed.

Lemma tally_cons (result : option string) (results : list (option string)) :
  succeeded (result :: results)
  = (if truthy_str result then 1 else 0) + succeeded results
  ∧ failed (result :: results)
    = (if truthy_str result then 0 else 1) + failed results.
Proof.
  unfold succeeded, failed. simpl.
  destruct (truthy_str result); simpl; lia.
Qed.

Lemma tally_total (results : list (option string)) :
  succeeded results + failed results = Z.of_nat (length results).
Proof.
  induction results as [|result rest IH]; [done|].
  destruct (tally_cons result rest) as [-> ->].
  destruct (truthy_str result); simpl length; lia.
Qed.

Lemma cli_results_length {W} (eng : Engine W) (downloader : VideoDownloader W)
    (quality : string) (videos : list Video) (w : W) :
  length (cli_results eng downloader quality videos w) = length videos.
Proof.
  revert w. induction videos as [|video rest IH]; intros w; [done|].
  simpl.
  destruct (download_video eng _ (v_url video) (Some quality) None w)
    as [[t [result|e]] w']; simpl; by rewrite IH.
Qed.

Lemma download_loop_cons {W} (eng : Engine W) (quality : string) (count : nat)
    (downloader : VideoDownloader W) (i : nat) (video : Video)
    (rest : list (nat * Video)) (downloaded failures : Z) (w w1 : W)
    (title : string) (t1 : list event) (result : option string) :
  v_title video = Some title →
  download_video eng (set_progress_callback downloader update_progress)
    (v_url video) (Some quality) None w = (t1, Ok result, w1) →
  download_loop eng downloader quality count ((i, video) :: rest)
    downloaded failures w
  = match download_loop eng
            (set_progress_callback downloader update_progress) quality count
            rest (if truthy_str result then downloaded + 1 else downloaded)
            (if truthy_str result then failures else failures + 1) w1 with
    | (t2, r, w2) =>
        (console (cli_item i count (take_chars 50 title)) :: t1
           ++ console (if truthy_str result then cli_done else cli_failed)
           :: t2, r, w2)
    end.
Proof.
  intros Ht Hrun. cbn [download_loop]. rewrite Ht.
  rewrite bind_run. unfold ret at 1. rewrite bind_run. unfold emit at 1.
  rewrite bind_run, Hrun.
  destruct (truthy_str result); rewrite bind_run; unfold emit at 1;
    by destruct (download_loop _ _ _ _ _ _ _ _) as [[t2 r] w2].
Qed.

Lemma download_loop_run {W} (eng : Engine W) (quality : string) (count : nat)
    (videos : list Video) (downloader : VideoDownloader W) (i : nat)
    (downloaded failures : Z) (w : W) :
  Forall (λ v, v_title v ≠ None) videos →
  let results := cli_results eng downloader quality videos w in
  ∃ t w',
    download_loop eng downloader quality count (enumerate i videos)
      downloaded failures w
    = (t, Ok (downloaded + succeeded results, failures + failed results), w').
Proof.
  intros Htitles. revert downloader i downloaded failures w.
  induction Htitles as [|video rest Htitle _ IH];
    intros downloader i downloaded failures w results.
  - exists [], w. unfold results, succeeded, failed. simpl.
    by rewrite !Z.add_0_r.
  - destruct (v_title video) as [title|] eqn:Ht; [|done].
    set (self := set_progress_callback downloader update_progress).
    destruct (download_video_result eng self (v_url video) (Some quality)
                None w) as (t1 & result & w1 & Hrun).
    assert (Hresults :
              results = result :: cli_results eng self quality rest w1).
    { unfold results. simpl. fold self. rewrite Hrun.
      unfold self. by rewrite cli_results_callback. }
    rewrite Hresults. clear Hresults results.
    destruct (tally_cons result (cli_results eng self quality rest w1))
      as [-> ->].
    change (enumerate i (video :: rest))
      with ((i, video) :: enumerate (S i) rest).
    rewrite (download_loop_cons _ _ _ _ _ _ _ _ _ _ _ _ _ _ Ht Hrun).
    fold self.
    destruct (IH self (S i)
                (if truthy_str result then downloaded + 1 else downloaded)
                (if truthy_str result then failures else failures + 1) w1)
      as (t2 & w2 & ->).
    eexists _, w2. do 2 f_equal. f_equal.
    destruct (truthy_str result); f_equal; lia.
Qed.

Lemma filter_none {A} (f : A → bool) (P : A → Prop) (l : list A) :
  (∀ x, P x → f x = false) → Forall P l → List.filter f l = [].
Proof.
  intros Hf Hl. induction Hl as [|x l Hx _ IH]; [done|].
  simpl. by rewrite (Hf x Hx).
Qed.

Lemma download_loop_quiet {W} (eng : Engine W) (quality : string) (count : nat)
    (videos : list Video) (downloader : VideoDownloader W) (i : nat)
    (downloaded failures : Z) (w : W) :
  Forall terminal_flow_event
    (trace_of (download_loop eng downloader quality count (enumerate i videos)
                 downloaded failures) w).
Proof.
  revert downloader i downloaded failures w.
  induction videos as [|video rest IH];
    intros downloader i downloaded failures w; [by constructor|].
  change (enumerate i (video :: rest))
    with ((i, video) :: enumerate (S i) rest).
  destruct (v_title video) as [title|] eqn:Ht.
  - set (self := set_progress_callback downloader update_progress).
    destruct (download_video_result eng self (v_url video) (Some quality)
                None w) as (t1 & result & w1 & Hrun).
    assert (Ht1 : Forall terminal_flow_event t1).
    { replace t1 with (trace_of (download_video eng self (v_url video)
                                   (Some quality) None) w)
        by (unfold trace_of; by rewrite Hrun).
      apply download_video_trace; [done|].
      intros callback [= <-] p w0. repeat constructor. }
    unfold trace_of.
    rewrite (download_loop_cons _ _ _ _ _ _ _ _ _ _ _ _ _ _ Ht Hrun).
    fold self.
    specialize (IH self (S i)
                  (if truthy_str result then downloaded + 1 else downloaded)
                  (if truthy_str result then failures else failures + 1) w1).
    unfold trace_of in IH.
    destruct (download_loop eng self quality count (enumerate (S i) rest) _ _
                w1) as [[t2 r] w2].
    simpl in *. constructor; [done|].
    apply Forall_app. split; [done|]. by constructor.
  - unfold trace_of. cbn [download_loop]. rewrite Ht, bind_run.
    by constructor.
Qed.

(** C1, the claim as stated, fails: no flow emits the events and reports
    the tally.  In the web batch the end-of-batch event is the same
    [batch_complete], carrying the batch id alone, for a batch in which
    the second of three videos fails and for a batch in which none fails,
    and the trace holds no report line; the terminal flow, which reports
    the tally, emits neither [video_complete] nor [batch_complete]. *)
Lemma batch_complete_carries_no_tally :
  let web videos :=
    trace_of (do_batch_download flaky_engine (Some videos) (Some "best")
                (Some "b1")) [] in
  let terminal :=
    trace_of (download_channel_playlist flaky_engine
                (VideoDownloader_init "downloads") three_listed "best") [] in
  List.filter is_video_complete (web three_videos)
  = [video_complete (Some "b1") "b1_0" true;
     video_complete (Some "b1") "b1_1" false;
     video_complete (Some "b1") "b1_2" true]
  ∧ List.filter is_video_complete (web three_sound)
    = [video_complete (Some "b1") "b1_0" true;
       video_complete (Some "b1") "b1_1" true;
       video_complete (Some "b1") "b1_2" true]
  ∧ last (web three_videos) = Some (batch_complete (Some "b1"))
  ∧ last (web three_sound) = Some (batch_complete (Some "b1"))
  ∧ List.filter is_report (web three_videos) = []
  ∧ List.filter is_report terminal
    = [console (cli_starting 3); console (cli_item 1 3 "A"); console cli_done;
       console (cli_item 2 3 "B"); console cli_failed;
       console (cli_item 3 3 "C"); console cli_done;
       console cli_finished; console (cli_succeeded 2);
       console (cli_failures 1)]
  ∧ List.filter is_video_complete terminal = []
  ∧ List.filter is_batch_complete terminal = [].
Proof. by vm_compute. Qed.

(** C1, amended.  In the web batch every video gets its [batch_progress]
    and its [video_complete] event, numbered in order and flagged with
    whether its download returned a path, whatever the earlier downloads
    did; the run does not raise and ends with the only [batch_complete],
    which carries the batch id alone: the web batch emits no report line
    and so no tally.  With three videos of which exactly the second fails
    the flags are true, false, true.  The tally is reported by the
    terminal flow only: every listed video is downloaded there, the
    closing report carries the number of downloads that returned a path
    and the number that did not (2 and 1 for three videos of which exactly
    the second fails), and no [video_complete] or [batch_complete] event
    is emitted. *)
Theorem batch_runs_every_job {W} (eng : Engine W) :
  (∀ (videos : list BatchVideo) (quality batch_id : option string) (w : W),
     let results := batch_results eng quality batch_id 0 videos w in
     ∃ t w',
       do_batch_download eng (Some videos) quality batch_id w
       = (t ++ [batch_complete batch_id], Ok (), w')
       ∧ length results = length videos
       ∧ List.filter is_video_complete t = completions batch_id 0 results
       ∧ length (List.filter is_batch_progress t) = length videos
       ∧ List.filter is_batch_complete (t ++ [batch_complete batch_id])
         = [batch_complete batch_id]
       ∧ List.filter is_report (t ++ [batch_complete batch_id]) = []
       ∧ (∀ r1 r3, results = [Some r1; None; Some r3] →
            List.filter is_video_complete t
            = [video_complete batch_id (video_id_of batch_id 0) true;
               video_complete batch_id (video_id_of batch_id 1) false;
               video_complete batch_id (video_id_of batch_id 2) true]))
  ∧ (∀ (downloader : VideoDownloader W) (videos : list Video)
       (quality : string) (w : W),
       Forall (λ v, v_title v ≠ None) videos →
       let results := cli_results eng downloader quality videos w in
       ∃ t w',
         download_channel_playlist eng downloader videos quality w
         = (t ++ cli_report (succeeded results) (failed results), Ok (), w')
         ∧ length results = length videos
         ∧ succeeded results + failed results = Z.of_nat (length videos)
         ∧ List.filter is_video_complete
             (t ++ cli_report (succeeded results) (failed results)) = []
         ∧ List.filter is_batch_complete
             (t ++ cli_report (succeeded results) (failed results)) = []
         ∧ (∀ r1 r2 r3, results = [r1; r2; r3] →
              truthy_str r1 = true → truthy_str r2 = false →
              truthy_str r3 = true →
              cli_report (succeeded results) (failed results)
              = [console cli_finished; console (cli_succeeded 2);
                 console (cli_failures 1)])).
Proof.
  split.
  - intros videos quality batch_id w results.
    destruct (batch_loop_run eng quality batch_id (length videos) videos 0 w)
      as (t & w' & Hloop & Hvc & Hbc & Hbp & Hlen & Hrep).
    fold results in Hvc, Hlen.
    exists t, w'. split_and!; try done.
    + unfold do_batch_download. rewrite bind_run. unfold ret at 1.
      rewrite bind_run, Hloop. reflexivity.
    + rewrite List.filter_app, Hbc. reflexivity.
    + rewrite List.filter_app, Hrep. reflexivity.
    + intros r1 r3 Hres. rewrite Hvc, Hres. reflexivity.
  - intros downloader videos quality w Htitles results.
    destruct (download_loop_run eng quality (length videos) videos downloader
                1 0 0 w Htitles) as (t & w' & Hloop).
    fold results in Hloop. rewrite !Z.add_0_l in Hloop.
    pose proof (download_loop_quiet eng quality (length videos) videos
                  downloader 1 0 0 w) as Hquiet.
    unfold trace_of in Hquiet. rewrite Hloop in Hquiet. simpl in Hquiet.
    assert (Hall : Forall terminal_flow_event
                     ((console (cli_starting (length videos)) :: t)
                      ++ cli_report (succeeded results) (failed results))).
    { apply Forall_app. split; [by constructor|].
      unfold cli_report. destruct (negb (failed results =? 0));
        repeat constructor. }
    exists (console (cli_starting (length videos)) :: t), w'.
    assert (Hlen : length results = length videos)
      by apply cli_results_length.
    split_and!; [|done| | | |].
    + unfold download_channel_playlist. rewrite bind_run. unfold emit at 1.
      rewrite bind_run, Hloop. unfold cli_report.
      destruct (negb (failed results =? 0)); reflexivity.
    + by rewrite tally_total, Hlen.
    + apply (filter_none _ terminal_flow_event); [by intros []|done].
    + apply (filter_none _ terminal_flow_event); [by intros []|done].
    + intros r1 r2 r3 -> H1 H2 H3. unfold succeeded, failed, cli_report.
      simpl. by rewrite H1, H2, H3.
Qed.

Lemma batch_runs_every_job_witness :
  Forall (λ v, v_title v ≠ None) three_listed
  ∧ (∃ t w',
       download_channel_playlist flaky_engine (VideoDownloader_init "downloads")
         three_listed "best" []
       = (t ++ [console cli_finished; console (cli_succeeded 2);
                console (cli_failures 1)], Ok (), w'))
  ∧ (∃ t w',
       do_batch_download flaky_engine (Some three_videos) (Some "best")
         (Some "b1") []
       = (t ++ [batch_complete (Some "b1")], Ok (), w')
       ∧ List.filter is_video_complete t
         = [video_complete (Some "b1") "b1_0" true;
            video_complete (Some "b1") "b1_1" false;
            video_complete (Some "b1") "b1_2" true]).
Proof.
  assert (Htitles : Forall (λ v, v_title v ≠ None) three_listed)
    by (repeat constructor; discriminate).
  destruct (batch_runs_every_job flaky_engine) as [Hweb Hcli].
  split_and!; [exact Htitles| |].
  - destruct (Hcli (VideoDownloader_init "downloads") three_listed "best" []
                Htitles) as (t & w' & Hrun & _ & _ & _ & _ & Hthree).
    exists t, w'. rewrite Hrun.
    by rewrite (Hthree _ _ _ eq_refl eq_refl eq_refl eq_refl).
  - destruct (Hweb three_videos (Some "best") (Some "b1") [])
      as (t & w' & Hrun & _ & _ & _ & _ & _ & Hthree).
    exists t, w'. split; [exact Hrun|].
    exact (Hthree _ _ eq_refl).
Defined.

(** * Further properties *)

(** ** Durations *)











(** ** Metadata *)

Lemma collect_formats_filter (raw : list RawFormat) (acc : list FormatInfo) :
  collect_formats raw acc
  = acc ++ (format_info_of <$> List.filter has_stream raw).
Proof.
  revert acc. induction raw as [|f raw IH]; intros acc; simpl.
  - by rewrite app_nil_r.
  - rewrite IH. destruct (has_stream f); simpl; [|done].
    by rewrite <- app_assoc.
Qed.

Lemma has_stream_false (f : RawFormat) :
  has_stream f = false
  ↔ get (f_vcodec f) = Some "none" ∧ get (f_acodec f) = Some "none".
Proof.
  unfold has_stream.
  rewrite orb_false_iff, !negb_false_iff, !bool_decide_eq_true. done.
Qed.

Lemma get_video_info_run {W} (eng : Engine W) (url : string) (w : W) :
  get_video_info eng url w
  = match extract_info eng url w with
    | (Ok (Some info), w1) =>
        match get_or [] (i_formats info) with
        | Some raw =>
            ([], Ok (Some {| url := url;
                             title := get_or "Unknown" (i_title info);
                             duration := default 0 (get (i_duration info));
                             thumbnail := get_or "" (i_thumbnail info);
                             uploader := get_or "Unknown" (i_uploader info);
                             formats := format_info_of
                                          <$> List.filter has_stream raw |}),
             w1)
        | None =>
            ([stdout ("Error getting video info: "
                      +:+ "'NoneType' object is not iterable")], Ok None, w1)
        end
    | (Ok None, w1) => ([], Ok None, w1)
    | (Raise e, w1) =>
        ([stdout ("Error getting video info: " +:+ e)], Ok None, w1)
    end.
Proof.
  unfold get_video_info, try_except. rewrite bind_run. unfold call.
  destruct (extract_info eng url w) as [[[info|]|e] w1]; try reflexivity.
  destruct (get_or [] (i_formats info)) as [raw|] eqn:Hraw; simpl;
    [|reflexivity].
  rewrite collect_formats_filter. simpl.
  do 4 f_equal.
  destruct (i_duration info) as [| |z]; try reflexivity.
  unfold or_Z. simpl. destruct (z =? 0) eqn:Hz; simpl; [|done].
  apply Z.eqb_eq in Hz. by subst.
Qed.

(** X3.  When the engine answers the metadata query with a list of
    formats, [get_video_info] returns, without a diagnostic, the record
    for the requested URL whose formats are the engine's formats that have
    a video or an audio stream, in the engine's order; a format is left
    out exactly when both its codecs are the string 'none', and the
    duration is 0 when the engine gives none. *)
Theorem video_info_keeps_streams {W} (eng : Engine W) (video_url : string)
    (w w1 : W) (info : InfoDict) (raw : list RawFormat) :
  extract_info eng video_url w = (Ok (Some info), w1) →
  get_or [] (i_formats info) = Some raw →
  ∃ vi : VideoInfo,
    get_video_info eng video_url w = ([], Ok (Some vi), w1)
    ∧ url vi = video_url
    ∧ formats vi = format_info_of <$> List.filter has_stream raw
    ∧ (∀ f, f ∈ raw →
         (has_stream f = true → format_info_of f ∈ formats vi)
         ∧ (has_stream f = false ↔
              get (f_vcodec f) = Some "none" ∧ get (f_acodec f) = Some "none"))
    ∧ duration vi = default 0 (get (i_duration info)).
Proof.
  intros Hcall Hraw. rewrite get_video_info_run, Hcall, Hraw.
  eexists. split; [reflexivity|]. simpl. split_and!; try done.
  intros f Hf. split; [|apply has_stream_false].
  intros Hs. apply list_elem_of_fmap. exists f. split; [done|].
  apply list_elem_of_In, filter_In. split; [by apply list_elem_of_In|done].
Qed.

Lemma video_info_keeps_streams_witness :
  ∃ vi : VideoInfo,
    get_video_info ladder_engine "https://example.org/v" []
    = ([], Ok (Some vi), [])
    ∧ length (formats vi) = 4%nat ∧ duration vi = 65.
Proof.
  destruct (video_info_keeps_streams ladder_engine "https://example.org/v"
              [] [] _ _ eq_refl eq_refl) as (vi & Hrun & _ & Hf & _ & Hd).
  exists vi. split; [exact Hrun|]. by rewrite Hf, Hd.
Defined.

(** X4.  [get_video_info] returns [None] in exactly three cases: the
    engine raises, the engine returns nothing, or the engine's metadata
    carry a null list of formats; it never raises. *)
Theorem get_video_info_none_iff {W} (eng : Engine W) (video_url : string)
    (w : W) :
  returns (get_video_info eng video_url) w
  ∧ (result_of (get_video_info eng video_url) w = Ok None
     ↔ (∃ e, (extract_info eng video_url w).1 = Raise e)
       ∨ (extract_info eng video_url w).1 = Ok None
       ∨ (∃ info, (extract_info eng video_url w).1 = Ok (Some info)
                  ∧ i_formats info = Null)).
Proof.
  split; [apply get_video_info_returns|].
  unfold result_of. rewrite get_video_info_run.
  destruct (extract_info eng video_url w) as [[[info|]|e] w1]; simpl.
  - destruct (i_formats info) as [| |raw] eqn:Hf; simpl.
    + split; [discriminate|]. intros [[e He]|[He|(i & He & Hi)]];
        try discriminate. congruence.
    + split; [|done]. intros _. right; right. by exists info.
    + split; [discriminate|]. intros [[e He]|[He|(i & He & Hi)]];
        try discriminate. congruence.
  - split; [|done]. intros _. by right; left.
  - split; [|done]. intros _. left. by exists e.
Qed.

(** ** Downloads and their events *)

Lemma hooks_without_callback {W} (self : VideoDownloader W)
    (reports : list RawProgress) (w : W) :
  _progress_callback self = None →
  for_each (_progress_hook self) reports w = ([], Ok (), w).
Proof.
  intros Hcb. induction reports as [|d reports IH]; [done|].
  rewrite for_each_cons, bind_run. unfold _progress_hook at 1.
  rewrite Hcb. unfold ret at 1. by rewrite IH.
Qed.

(** X5.  A downloader on which no callback was set ignores the progress
    reports of the engine: [download_video] emits no progress event, and
    its result is the prepared file name when the engine returns metadata,
    [None] when it returns nothing, and [None] with one diagnostic line
    when the engine or the file-name preparation raises. *)
Theorem download_without_callback {W} (eng : Engine W)
    (self : VideoDownloader W) (video_url quality filename_template :
    option string) (w w1 : W) (reports : list RawProgress)
    (r : res (option InfoDict)) :
  _progress_callback self = None →
  run_download eng video_url quality (output_path_of self filename_template) w
  = (reports, r, w1) →
  download_video eng self video_url quality filename_template w
  = match r with
    | Ok (Some info) =>
        match prepare_filename eng (output_path_of self filename_template)
                info with
        | Ok name => ([], Ok (Some name), w1)
        | Raise e =>
            ([stdout ("Error downloading video: " +:+ e)], Ok None, w1)
        end
    | Ok None => ([], Ok None, w1)
    | Raise e => ([stdout ("Error downloading video: " +:+ e)], Ok None, w1)
    end.
Proof.
  intros Hcb Hrun. unfold download_video, try_except. rewrite bind_run.
  unfold extract_info_download. rewrite Hrun, bind_run.
  rewrite (hooks_without_callback self reports w1 Hcb).
  destruct r as [[info|]|e]; simpl; try reflexivity.
  by destruct (prepare_filename eng _ info).
Qed.

Lemma download_without_callback_witness :
  download_video flaky_engine (VideoDownloader_init "downloads")
    (Some "https://example.org/a") (Some "best") None []
  = ([], Ok (Some "downloads/Clip.mp4"), [Some "https://example.org/a"]).
Proof.
  exact (download_without_callback flaky_engine
           (VideoDownloader_init "downloads") (Some "https://example.org/a")
           (Some "best") None [] _ _ _ eq_refl eq_refl).
Defined.

Lemma progress_callback_job_event {W} (id : option string)
    (p : DownloadProgress) (w : W) :
  Forall (job_event id) (trace_of (progress_callback id p) w).
Proof.
  unfold trace_of, progress_callback. rewrite bind_run.
  destruct (downloaded_bytes p); simpl; repeat constructor.
Qed.

(** X6.  Every event of a download request carries the id of the request:
    the start, progress, completion and error events all name it, and the
    only other events are diagnostic lines. *)
Theorem job_events_carry_id {W} (eng : Engine W) (data : StartDownload)
    (w : W) :
  Forall (job_event (download_id_of data))
    (trace_of (run_request (handle_download eng data)) w).
Proof.
  set (id := download_id_of data).
  set (video_url := get_or "" (sd_url data)).
  set (quality := get_or "best" (sd_quality data)).
  unfold trace_of, run_request, handle_download.
  fold id video_url quality.
  destruct (truthy_str video_url) eqn:Hurl; simpl negb; cbv iota.
  - destruct (do_download_run eng video_url quality id w)
      as (t & result & w' & Hdl & Hrun).
    rewrite !bind_run. simpl. rewrite Hrun. simpl.
    constructor; [done|]. apply Forall_app. split.
    + replace t with (trace_of (download_video eng
                        (local_downloader (progress_callback id))
                        video_url quality None) w)
        by (unfold trace_of; by rewrite Hdl).
      apply download_video_trace; [done|].
      intros callback Hcb p w0. injection Hcb as <-.
      apply progress_callback_job_event.
    + repeat constructor. unfold terminal_of.
      by destruct (truthy_str result).
  - simpl. repeat constructor.
Qed.

Lemma batch_download_video_events {W} (eng : Engine W)
    (quality batch_id : option string) (i : nat) (video : BatchVideo) (w : W) :
  ∃ t result w',
    batch_download_video eng quality batch_id i video w = (t, Ok result, w')
    ∧ Forall (video_event batch_id (video_id_of batch_id i)) t.
Proof.
  unfold batch_download_video.
  set (self := local_downloader _).
  destruct (download_video_result eng self (get_or "" (bv_url video))
              quality None w) as (t & result & w' & Hrun).
  exists t, result, w'. split; [done|].
  replace t with (trace_of (download_video eng self
                    (get_or "" (bv_url video)) quality None) w)
    by (unfold trace_of; by rewrite Hrun).
  apply download_video_trace; [done|].
  intros callback Hcb p w0. injection Hcb as <-.
  repeat constructor.
Qed.

Lemma batch_loop_shape {W} (eng : Engine W) (quality batch_id : option string)
    (total : nat) (videos : list BatchVideo) (i : nat) (w : W) :
  ∃ t w',
    for_each (batch_body eng quality batch_id total) (enumerate i videos) w
    = (t, Ok (), w')
    ∧ batch_shape batch_id total i videos
        (batch_results eng quality batch_id i videos w) t.
Proof.
  revert i w. induction videos as [|video rest IH]; intros i w.
  - by exists [], w.
  - destruct (batch_download_video_events eng quality batch_id i video w)
      as (t1 & result & w1 & Hrun & Hevents).
    destruct (IH (S i) w1) as (t2 & w2 & Hrest & Hshape).
    change (enumerate i (video :: rest))
      with ((i, video) :: enumerate (S i) rest).
    rewrite for_each_cons, bind_run.
    rewrite (batch_body_run _ _ _ total _ _ _ _ _ _ Hrun), Hrest.
    eexists _, w2. split; [reflexivity|].
    simpl. rewrite Hrun. simpl.
    exists t1, t2. split_and!; [|done|done].
    by rewrite <- app_assoc.
Qed.

(** X7.  The trace of a web batch is made, video by video in the order of
    the request, of the announcement [batch_progress] numbered from 1 with
    the size of the batch and the title of the video, then the events of
    that download, whose progress events all carry the id of that video
    and the id of the batch, then the [video_complete] of that video; the
    single [batch_complete] closes the trace. *)
Theorem batch_trace_video_by_video {W} (eng : Engine W)
    (videos : list BatchVideo) (quality batch_id : option string) (w : W) :
  ∃ t w',
    do_batch_download eng (Some videos) quality batch_id w
    = (t ++ [batch_complete batch_id], Ok (), w')
    ∧ batch_shape batch_id (length videos) 0 videos
        (batch_results eng quality batch_id 0 videos w) t.
Proof.
  destruct (batch_loop_shape eng quality batch_id (length videos) videos 0 w)
    as (t & w' & Hloop & Hshape).
  exists t, w'. split; [|done].
  unfold do_batch_download. rewrite bind_run. unfold ret at 1.
  rewrite bind_run, Hloop. reflexivity.
Qed.

(** ** Rounding of the percent *)

Lemma round_half_even_near (n : Z) (d : positive) :
  2 * Z.abs (round_half_even (n # d) * Z.pos d - n) ≤ Z.pos d.
Proof.
  unfold round_half_even. simpl.
  pose proof (Z.div_mod n (Z.pos d) ltac:(lia)).
  pose proof (Z.mod_pos_bound n (Z.pos d) ltac:(lia)).
  repeat case_match; lia.
Qed.

Lemma round1_near (q : Q) : (Qabs (round1 q - q) <= 1 # 20)%Q.
Proof.
  destruct q as [n d]. unfold round1.
  destruct (Qle_bool 0 (n # d)) eqn:Hsign.
  - pose proof (round_half_even_near (n * 10) (d * 1)) as Hnear.
    change ((n # d) * 10)%Q with (n * 10 # d * 1).
    set (z := round_half_even (n * 10 # d * 1)) in *.
    unfold Qle, Qabs, Qminus, Qplus, Qopp. simpl.
    rewrite ?Pos2Z.inj_mul in *. lia.
  - assert (Hneg : n < 0).
    { destruct (Z.lt_ge_cases n 0) as [?|Hge]; [done|].
      assert (Qle_bool 0 (n # d) = true); [|congruence].
      apply Qle_bool_iff. unfold Qle. simpl. lia. }
    pose proof (round_half_even_near (Z.abs n * 10) (d * 1)) as Hnear.
    change (Qabs (n # d) * 10)%Q with (Z.abs n * 10 # d * 1).
    set (z := round_half_even (Z.abs n * 10 # d * 1)) in *.
    unfold Qle, Qabs, Qminus, Qplus, Qopp. simpl.
    rewrite ?Pos2Z.inj_mul in *. lia.
Qed.

(** X8.  A progress event sent to the browser, by the single-download
    callback as by the batch callback, carries the status of the report
    and a percent within 0.05 of the percent of the report (it is rounded
    to one decimal); the single-download callback sends nothing and raises
    when the report has a null byte count. *)
Theorem progress_events_round_percent {W} (id batch_id : option string)
    (vid : string) (p : DownloadProgress) (w : W) :
  (∀ n, downloaded_bytes p = Some n →
     ∃ payload,
       progress_callback id p w = ([download_progress payload], Ok (), w)
       ∧ pp_status payload = status p
       ∧ (Qabs (pp_percent payload - percent p) <= 1 # 20)%Q)
  ∧ (downloaded_bytes p = None →
     ∃ e, progress_callback id p w = ([], Raise e, w))
  ∧ (∃ payload,
       make_progress_callback batch_id vid p w
       = ([download_progress payload], Ok (), w)
       ∧ pp_status payload = status p
       ∧ (Qabs (pp_percent payload - percent p) <= 1 # 20)%Q).
Proof.
  split_and!.
  - intros n Hn. unfold progress_callback. rewrite bind_run, Hn.
    eexists. split; [reflexivity|]. split; [done|apply round1_near].
  - intros Hn. unfold progress_callback. rewrite bind_run, Hn.
    eexists. reflexivity.
  - eexists. split; [reflexivity|]. split; [done|apply round1_near].
Qed.

Lemma progress_events_round_percent_witness :
  ∃ payload,
    progress_callback (W := unit) (Some "job-1") third_progress ()
    = ([download_progress payload], Ok (), ())
    ∧ pp_status payload = Some "downloading"
    ∧ (Qabs (pp_percent payload - (100 # 3)) <= 1 # 20)%Q.
Proof.
  exact (proj1 (progress_events_round_percent (W := unit) (Some "job-1") None
                  "" third_progress ()) 1 eq_refl).
Defined.

(** ** Listings and channel downloads *)

(** X9.  Without a maximum ([None] or 0) [get_channel_videos] returns
    every non-null entry of the engine's listing, in order; when the
    listing fails while it is read, the entries obtained before the
    failure are returned all the same, with one diagnostic line. *)
Theorem listing_without_maximum {W} (eng : Engine W) (channel_url : string)
    (max_videos : option Z) (w w1 : W) (info : FlatInfo) (es : Entries) :
  truthy_Z max_videos = false →
  extract_flat eng channel_url None w = (Ok (Some info), w1) →
  get_or no_entries (entries info) = Some es →
  get_channel_videos eng channel_url max_videos w
  = (match failure es with
     | Some e => [stdout ("Error getting channel videos: " +:+ e)]
     | None => []
     end,
     Ok (video_of <$> omap id (items es)), w1).
Proof.
  intros Hmax Hcall Hes. unfold get_channel_videos, channel_try.
  unfold playlist_items_of. rewrite Hmax, Hcall, Hes.
  rewrite collect_videos_uncapped by done.
  by destruct (failure es).
Qed.

Lemma listing_without_maximum_witness :
  get_channel_videos broken_listing_engine "https://example.org/c" None []
  = ([stdout "Error getting channel videos: Connection reset"],
     Ok [video_of (sample_entry "a"); video_of (sample_entry "b")], []).
Proof.
  exact (listing_without_maximum broken_listing_engine "https://example.org/c"
           None [] [] broken_listing _ eq_refl eq_refl eq_refl).
Defined.

Lemma get_channel_videos_length {W} (eng : Engine W) (channel_url : string)
    (max : Z) (w w' : W) (t : list event) (videos : list Video) :
  0 < max →
  get_channel_videos eng channel_url (Some max) w = (t, Ok videos, w') →
  Z.of_nat (length videos) ≤ max.
Proof.
  intros Hmax. unfold get_channel_videos, channel_try.
  destruct (extract_flat eng channel_url (playlist_items_of (Some max)) w)
    as [[[info|]|e] w1].
  - destruct (get_or no_entries (entries info)) as [es|].
    + pose proof (collect_videos_capped max 0 (items es) (failure es) []
                    Hmax ltac:(lia)) as Hcap.
      destruct (collect_videos (Some max) 0 (items es) (failure es) [])
        as [vs [e|]]; simpl in Hcap; intros Hrun; injection Hrun as _ <- _;
        subst vs; rewrite length_fmap;
        pose proof (length_omap_le id (take (Z.to_nat (max - 0)) (items es)));
        rewrite length_take in *; lia.
    + intros Hrun. injection Hrun as _ <- _. simpl. lia.
  - intros Hrun. injection Hrun as _ <- _. simpl. lia.
  - intros Hrun. injection Hrun as _ <- _. simpl. lia.
Qed.

Lemma paths_of_cons (result : option string) (results : list (option string)) :
  paths_of (result :: results)
  = (if truthy_str result then [default "" result] else [])
    ++ paths_of results.
Proof. unfold paths_of. simpl. by destruct (truthy_str result). Qed.

Lemma length_paths_of (results : list (option string)) :
  (length (paths_of results) ≤ length results)%nat.
Proof.
  induction results as [|result rest IH]; [done|].
  rewrite paths_of_cons, length_app.
  destruct (truthy_str result); simpl; lia.
Qed.

Lemma sequential_results_length {W} (eng : Engine W) (self : VideoDownloader W)
    (quality : option string) (urls : list (option string)) (w : W) :
  length (sequential_results eng self quality urls w) = length urls.
Proof.
  revert w. induction urls as [|u rest IH]; intros w; [done|].
  simpl.
  destruct (download_video eng self u quality None w)
    as [[t [result|e]] w']; simpl; by rewrite IH.
Qed.

Lemma download_channel_loop_run {W} (eng : Engine W) (self : VideoDownloader W)
    (quality : option string) (total : nat) (videos : list Video) (i : nat)
    (files : list string) (w : W) :
  ∃ t w',
    download_channel_loop eng self quality None total (enumerate i videos)
      files w
    = (t, Ok (files ++ paths_of (sequential_results eng self quality
                                    (v_url <$> videos) w)), w').
Proof.
  revert i files w. induction videos as [|video rest IH]; intros i files w.
  - exists [], w. simpl. by rewrite app_nil_r.
  - destruct (download_video_result eng self (v_url video) quality None w)
      as (t1 & result & w1 & Hrun).
    change (enumerate i (video :: rest))
      with ((i, video) :: enumerate (S i) rest).
    cbn [download_channel_loop]. rewrite bind_run. unfold ret at 1.
    rewrite bind_run, Hrun.
    destruct (IH (S i)
                (if truthy_str result then files ++ [default "" result]
                 else files) w1) as (t2 & w2 & ->).
    eexists _, w2. do 2 f_equal. f_equal.
    cbn [fmap list_fmap sequential_results]. rewrite Hrun, paths_of_cons.
    destruct (truthy_str result); by rewrite <- ?app_assoc.
Qed.

(** X10.  [download_channel] without a video callback downloads every
    listed video in order and returns the paths of the downloads that
    succeeded, in that order: a failed download is left out and does not
    stop the following ones, the call never raises, and with a positive
    maximum at most that many files are returned. *)
Theorem download_channel_files {W} (eng : Engine W) (self : VideoDownloader W)
    (channel_url : string) (quality : option string) (max_videos : option Z)
    (w w0 : W) (t0 : list event) (videos : list Video) :
  get_channel_videos eng channel_url max_videos w = (t0, Ok videos, w0) →
  let results :=
    sequential_results eng self quality (v_url <$> videos) w0 in
  ∃ t w',
    download_channel eng self channel_url quality max_videos None w
    = (t0 ++ t, Ok (paths_of results), w')
    ∧ length results = length videos
    ∧ (length (paths_of results) ≤ length videos)%nat
    ∧ (∀ max, max_videos = Some max → 0 < max →
         Z.of_nat (length (paths_of results)) ≤ max).
Proof.
  intros Hlist results.
  destruct (download_channel_loop_run eng self quality (length videos) videos
              0 [] w0) as (t & w' & Hloop).
  assert (Hlen : length results = length videos).
  { unfold results. by rewrite sequential_results_length, length_fmap. }
  pose proof (length_paths_of results) as Hpaths.
  exists t, w'. split_and!; [|done|lia|].
  - unfold download_channel. rewrite bind_run, Hlist, Hloop. reflexivity.
  - intros max -> Hmax.
    pose proof (get_channel_videos_length eng channel_url max w w0 t0 videos
                  Hmax Hlist). lia.
Qed.

Lemma download_channel_files_witness :
  ∃ t w',
    download_channel channel_engine (VideoDownloader_init "downloads")
      "https://example.org/c" (Some "best") (Some 2) None []
    = ([] ++ t, Ok ["downloads/Clip.mp4"; "downloads/Clip.mp4"], w').
Proof.
  destruct (download_channel_files channel_engine
              (VideoDownloader_init "downloads") "https://example.org/c"
              (Some "best") (Some 2) [] [] [] _ eq_refl)
    as (t & w' & Hrun & _).
  exists t, w'. exact Hrun.
Defined.

(** ** The HTTP routes *)

(** X11.  The route [/api/info] refuses an empty or absent URL with
    status 400 without calling the engine, answers 400 exactly when the
    metadata fetch returns nothing, and never raises.  On success the
    duration is the formatted duration of the fetched metadata and the
    qualities are those of a second metadata fetch, made in the world the
    first one left: they are either empty (the second fetch failed) or
    start with the best-quality option and hold at least three options. *)
Theorem info_route_answers {W} (eng : Engine W) (data : InfoRequest) (w : W) :
  let address := get_or "" (ir_url data) in
  (truthy_str address = false →
     app.get_video_info eng data w
     = ([], Ok (json_error "URL is required" 400), w))
  ∧ (truthy_str address = true →
     ∃ t r w',
       app.get_video_info eng data w = (t, Ok r, w')
       ∧ (r = json_error "Could not fetch video info" 400
          ↔ result_of (get_video_info eng (default "" address)) w = Ok None)
       ∧ (∀ body, r = json_ok body →
            ∃ info t1 w1 t2,
              get_video_info eng (default "" address) w
              = (t1, Ok (Some info), w1)
              ∧ get_quality_options eng (default "" address) w1
                = (t2, Ok (ib_qualities body), w')
              ∧ t = t1 ++ t2
              ∧ ib_duration body = format_duration (duration info)
              ∧ ib_title body = title info
              ∧ (ib_qualities body = []
                 ∨ head (ib_qualities body) = Some best_option
                   ∧ (3 ≤ length (ib_qualities body))%nat))).
Proof.
  intros address. split.
  - intros Hurl. unfold app.get_video_info. fold address. by rewrite Hurl.
  - intros Hurl.
    assert (Hrun : app.get_video_info eng data w
                   = (get_video_info eng (default "" address)
                      ≫= λ info,
                           match info with
                           | None =>
                               ret (json_error "Could not fetch video info"
                                      400)
                           | Some info =>
                               get_quality_options eng (default "" address)
                               ≫= λ qualities,
                                    ret (json_ok
                                      {| ib_title := title info;
                                         ib_uploader := uploader info;
                                         ib_duration :=
                                           format_duration (duration info);
                                         ib_thumbnail := thumbnail info;
                                         ib_qualities := qualities |})
                           end) w).
    { unfold app.get_video_info. fold address. by rewrite Hurl. }
    rewrite Hrun, bind_run. clear Hrun.
    destruct (get_video_info_returns eng (default "" address) w)
      as (t1 & [info|] & w1 & Hinfo).
    + unfold result_of. rewrite Hinfo. rewrite bind_run.
      pose proof (get_quality_options_run eng (default "" address) w1)
        as Hq.
      destruct (get_video_info_returns eng (default "" address) w1)
        as (t2 & info2 & w2 & Hinfo2).
      rewrite Hinfo2 in Hq.
      assert (Hq' : ∃ qs, get_quality_options eng (default "" address) w1
                          = (t2, Ok qs, w2)
                          ∧ (qs = [] ∨ head qs = Some best_option
                                       ∧ (3 ≤ length qs)%nat)).
      { destruct info2 as [info2|]; eexists; (split; [exact Hq|]).
        - right.
          destruct (quality_options_of_shape info2) as (hs & -> & _).
          split; [done|]. simpl. rewrite length_app. simpl. lia.
        - by left. }
      destruct Hq' as (qs & Hqs & Hshape). rewrite Hqs. simpl.
      eexists _, _, _. split; [reflexivity|]. split; [done|].
      intros body Hbody. injection Hbody as <-. simpl.
      exists info, t1, w1, t2. rewrite app_nil_r. by split_and!.
    + unfold result_of. rewrite Hinfo. simpl.
      eexists _, _, _. split; [reflexivity|]. split; [done|].
      intros body Hbody. discriminate.
Qed.

Lemma info_route_answers_witness :
  ∃ t r w',
    app.get_video_info ladder_engine
      {| ir_url := Val "https://example.org/v" |} [] = (t, Ok r, w')
    ∧ (∀ body, r = json_ok body →
         ib_duration body = "1:05" ∧ length (ib_qualities body) = 6%nat).
Proof.
  destruct (proj2 (info_route_answers ladder_engine
                     {| ir_url := Val "https://example.org/v" |} []) eq_refl)
    as (t & r & w' & Hrun & _ & Hbody).
  exists t, r, w'. split; [exact Hrun|].
  intros body Hr. destruct (Hbody body Hr)
    as (info & t1 & w1 & t2 & Hinfo & Hq & _ & Hd & _).
  injection Hinfo as <- <- <-. injection Hq as _ <-.
  by rewrite Hd.
Defined.

(** X12.  The route [/api/channel] refuses an empty or absent URL with
    status 400 without calling the engine and never raises; it answers
    400 exactly when the listing is empty; otherwise [count] is the number
    of videos in the answer, it is positive, it is at most 10 when the
    request names no maximum and at most the maximum when the request
    names a positive one. *)
Theorem channel_route_answers {W} (eng : Engine W) (data : ChannelRequest)
    (w : W) :
  let address := get_or "" (cr_url data) in
  let max_videos := get_or 10 (cr_max_videos data) in
  (truthy_str address = false →
     app.get_channel_videos eng data w
     = ([], Ok (json_error "URL is required" 400), w))
  ∧ (truthy_str address = true →
     ∃ t videos w',
       get_channel_videos eng (default "" address) max_videos w
       = (t, Ok videos, w')
       ∧ (videos = [] →
          app.get_channel_videos eng data w
          = (t, Ok (json_error "Could not fetch videos" 400), w'))
       ∧ (videos ≠ [] →
          ∃ body,
            app.get_channel_videos eng data w = (t, Ok (json_ok body), w')
            ∧ cb_videos body = app.channel_item <$> videos
            ∧ cb_count body = length (cb_videos body)
            ∧ (0 < cb_count body)%nat
            ∧ (cr_max_videos data = Missing → (cb_count body ≤ 10)%nat)
            ∧ (∀ max, cr_max_videos data = Val max → 0 < max →
                 Z.of_nat (cb_count body) ≤ max))).
Proof.
  intros address max_videos. split.
  - intros Hurl. unfold app.get_channel_videos. fold address. by rewrite Hurl.
  - intros Hurl.
    destruct (get_channel_videos_returns eng (default "" address)
                max_videos w) as (t & videos & w' & Hlist).
    exists t, videos, w'. split; [done|].
    assert (Hrun : app.get_channel_videos eng data w
                   = match videos with
                     | [] => (t, Ok (json_error "Could not fetch videos" 400),
                              w')
                     | _ => (t, Ok (json_ok
                                      {| cb_videos :=
                                           app.channel_item <$> videos;
                                         cb_count := length videos |}), w')
                     end).
    { unfold app.get_channel_videos. fold address max_videos.
      rewrite Hurl. change (negb true) with false. cbv iota.
      rewrite bind_run, Hlist.
      destruct videos; simpl; by rewrite app_nil_r. }
    split.
    + intros ->. exact Hrun.
    + intros Hne. destruct videos as [|v vs]; [done|].
      eexists. split; [exact Hrun|]. simpl.
      split_and!; try done.
      * by rewrite length_fmap.
      * lia.
      * intros Hmissing. unfold max_videos in Hlist.
        rewrite Hmissing in Hlist. simpl in Hlist.
        pose proof (get_channel_videos_length eng _ 10 _ _ _ _
                      ltac:(lia) Hlist) as Hlen.
        simpl in Hlen. lia.
      * intros max Hval Hmax. unfold max_videos in Hlist.
        rewrite Hval in Hlist. simpl in Hlist.
        pose proof (get_channel_videos_length eng _ max _ _ _ _ Hmax Hlist)
          as Hlen.
        simpl in Hlen. lia.
Qed.

Lemma channel_route_answers_witness :
  ∃ body,
    app.get_channel_videos playlist_engine
      {| cr_url := Val "https://example.org/c"; cr_max_videos := Val 2 |} []
    = ([], Ok (json_ok body), [])
    ∧ cb_count body = 2%nat.
Proof.
  destruct (proj2 (channel_route_answers playlist_engine
                     {| cr_url := Val "https://example.org/c";
                        cr_max_videos := Val 2 |} []) eq_refl)
    as (t & videos & w' & Hlist & _ & Hok).
  injection Hlist as <- <- <-.
  destruct (Hok ltac:(discriminate)) as (body & Hrun & Hvideos & Hcount & _).
  exists body. split; [exact Hrun|]. by rewrite Hcount, Hvideos.
Defined.

(** ** The menus of the terminal interface *)

Lemma py_index_in_range {A} (l : list A) (i : Z) :
  0 ≤ i < Z.of_nat (length l) →
  ∃ x, l !! Z.to_nat i = Some x ∧ py_index l i = Ok x.
Proof.
  intros Hi. unfold py_index.
  assert (H1 : (i <? 0) = false) by (apply Z.ltb_ge; lia).
  assert (H2 : (0 <=? i) = true) by (apply Z.leb_le; lia).
  assert (H3 : (i <? Z.of_nat (length l)) = true) by (apply Z.ltb_lt; lia).
  rewrite H1, H2, H3. simpl.
  destruct (lookup_lt_is_Some_2 l (Z.to_nat i) ltac:(lia)) as [x Hx].
  exists x. by rewrite Hx.
Qed.

Lemma py_index_from_end {A} (l : list A) (i : Z) :
  - Z.of_nat (length l) ≤ i < 0 →
  ∃ x, l !! Z.to_nat (i + Z.of_nat (length l)) = Some x
       ∧ py_index l i = Ok x.
Proof.
  intros Hi. unfold py_index.
  assert (H1 : (i <? 0) = true) by (apply Z.ltb_lt; lia).
  assert (H2 : (0 <=? i + Z.of_nat (length l)) = true)
    by (apply Z.leb_le; lia).
  assert (H3 : (i + Z.of_nat (length l) <? Z.of_nat (length l)) = true)
    by (apply Z.ltb_lt; lia).
  rewrite H1, H2, H3. simpl.
  destruct (lookup_lt_is_Some_2 l (Z.to_nat (i + Z.of_nat (length l)))
              ltac:(lia)) as [x Hx].
  exists x. by rewrite Hx.
Qed.

Lemma py_index_outside {A} (l : list A) (i : Z) :
  i < - Z.of_nat (length l) ∨ Z.of_nat (length l) ≤ i →
  py_index l i = Raise "list index out of range".
Proof.
  intros Hi. unfold py_index.
  destruct (i <? 0) eqn:H1.
  - apply Z.ltb_lt in H1.
    assert (H2 : (0 <=? i + Z.of_nat (length l)) = false)
      by (apply Z.leb_gt; lia).
    by rewrite H2.
  - apply Z.ltb_ge in H1.
    assert (H3 : (i <? Z.of_nat (length l)) = false)
      by (apply Z.ltb_ge; lia).
    by rewrite H3, andb_false_r.
Qed.

(** X13.  The quality chosen for a playlist download: a choice between 1
    and 5 selects that preset and a larger choice selects the last one
    (audio only); a choice between -4 and 0 is not refused but counts from
    the end of the list, so that 0 selects audio only; a choice below -4
    raises [IndexError]. *)
Theorem preset_of_choice (choice : Z) :
  (1 ≤ choice →
     ∃ preset,
       quality_presets !! Z.to_nat (Z.min choice 5 - 1) = Some preset
       ∧ preset_quality choice = Ok preset.1)
  ∧ (5 ≤ choice → preset_quality choice = Ok "bestaudio")
  ∧ (-4 ≤ choice ≤ 0 →
     ∃ preset,
       quality_presets !! Z.to_nat (choice + 4) = Some preset
       ∧ preset_quality choice = Ok preset.1)
  ∧ (choice = 0 → preset_quality choice = Ok "bestaudio")
  ∧ (choice < -4 → preset_quality choice = Raise "list index out of range").
Proof.
  split_and!.
  - intros Hc. unfold preset_quality.
    destruct (py_index_in_range quality_presets
                (Z.min choice (Z.of_nat (length quality_presets)) - 1))
      as (preset & Hlook & ->); [simpl; lia|].
    exists preset. split; [|done]. exact Hlook.
  - intros Hc. unfold preset_quality.
    replace (Z.min choice (Z.of_nat (length quality_presets))) with 5
      by (simpl; lia).
    reflexivity.
  - intros Hc. unfold preset_quality.
    destruct (py_index_from_end quality_presets
                (Z.min choice (Z.of_nat (length quality_presets)) - 1))
      as (preset & Hlook & ->); [simpl; lia|].
    exists preset. split; [|done].
    replace (choice + 4)
      with (Z.min choice (Z.of_nat (length quality_presets)) - 1
            + Z.of_nat (length quality_presets)) by (simpl; lia).
    exact Hlook.
  - by intros ->.
  - intros Hc. unfold preset_quality.
    rewrite py_index_outside; [done|]. simpl. lia.
Qed.

Lemma preset_of_choice_witness :
  preset_quality 9 = Ok "bestaudio"
  ∧ preset_quality (-7) = Raise "list index out of range".
Proof.
  split.
  - apply (proj1 (proj2 (preset_of_choice 9))). lia.
  - apply (proj2 (proj2 (proj2 (proj2 (preset_of_choice (-7)))))). lia.
Defined.

(** X14.  [settings_menu] changes at most the setting that was chosen:
    choice 2 replaces the maximum, choice 3 the directory, any choice
    other than 1, 2, 3 returns the settings as they were; choice 1
    replaces the quality by the option numbered by the answer when it lies
    between 1 and 5, by the last option for the answer 0, and raises
    [IndexError] for an answer above 5 or below -4. *)
Theorem settings_menu_changes_one (current_quality : string)
    (current_max : Z) (current_dir : string) (answers : SettingsAnswers) :
  let run := settings_menu current_quality current_max current_dir answers in
  (ans_choice answers = 1 →
     (1 ≤ ans_quality answers ≤ 5 →
        ∃ option,
          settings_options !! Z.to_nat (ans_quality answers - 1) = Some option
          ∧ run = Ok (option, current_max, current_dir))
     ∧ (ans_quality answers = 0 → run = Ok ("audio", current_max, current_dir))
     ∧ (5 < ans_quality answers ∨ ans_quality answers < -4 →
        run = Raise "list index out of range"))
  ∧ (ans_choice answers = 2 →
     run = Ok (current_quality, ans_max answers, current_dir))
  ∧ (ans_choice answers = 3 →
     run = Ok (current_quality, current_max, ans_dir answers))
  ∧ (ans_choice answers ≠ 1 → ans_choice answers ≠ 2 →
     ans_choice answers ≠ 3 →
     run = Ok (current_quality, current_max, current_dir))
  ∧ (∀ q m d, run = Ok (q, m, d) →
       (m = current_max ∧ d = current_dir)
       ∨ (q = current_quality ∧ d = current_dir)
       ∨ (q = current_quality ∧ m = current_max)).
Proof.
  intros run. unfold run, settings_menu. split_and!.
  - intros ->. simpl. split_and!.
    + intros Hq.
      destruct (py_index_in_range settings_options (ans_quality answers - 1))
        as (option & Hlook & ->); [simpl; lia|].
      by exists option.
    + by intros ->.
    + intros Hq. rewrite py_index_outside; [done|]. simpl. lia.
  - by intros ->.
  - by intros ->.
  - intros H1 H2 H3.
    apply Z.eqb_neq in H1, H2, H3. by rewrite H1, H2, H3.
  - intros q m d.
    destruct (ans_choice answers =? 1).
    + destruct (py_index settings_options (ans_quality answers - 1));
        [|discriminate].
      intros [= <- <- <-]. by left.
    + destruct (ans_choice answers =? 2); [intros [= <- <- <-]; by right; left|].
      destruct (ans_choice answers =? 3); intros [= <- <- <-]; by right; right.
Qed.

Lemma settings_menu_changes_one_witness :
  settings_menu "best" 10 "downloads"
    {| ans_choice := 1; ans_quality := 6; ans_max := 10;
       ans_dir := "downloads" |}
  = Raise "list index out of range"
  ∧ settings_menu "best" 10 "downloads"
      {| ans_choice := 2; ans_quality := 1; ans_max := 25;
         ans_dir := "downloads" |}
    = Ok ("best", 25, "downloads").
Proof.
  split.
  - apply (proj1 (settings_menu_changes_one "best" 10 "downloads"
                    {| ans_choice := 1; ans_quality := 6; ans_max := 10;
                       ans_dir := "downloads" |}) eq_refl).
    simpl. lia.
  - exact (proj1 (proj2 (settings_menu_changes_one "best" 10 "downloads"
                           {| ans_choice := 2; ans_quality := 1;
                              ans_max := 25; ans_dir := "downloads" |}))
             eq_refl).
Defined.

(** ** The single-video flow *)

Lemma pick_quality_offered (qualities : list QualityOption) (choices : list Z)
    (q : string) :
  pick_quality qualities choices = Some q →
  ∃ option, option ∈ qualities ∧ opt_id option = q.
Proof.
  induction choices as [|choice rest IH]; [discriminate|]. simpl.
  destruct ((1 <=? choice) && (choice <=? Z.of_nat (length qualities)))
    eqn:Hvalid; [|done].
  apply andb_prop in Hvalid as [H1 H2].
  apply Z.leb_le in H1, H2.
  destruct (py_index_in_range qualities (choice - 1) ltac:(lia))
    as (option & Hlook & ->).
  intros [= <-]. exists option. split; [|done].
  by apply list_elem_of_lookup_2 in Hlook.
Qed.

(** X15.  The quality prompt of the single-video flow skips every answer
    that is not between 1 and the number of options and selects the
    option numbered by the first answer that is; while no such answer has
    come it keeps asking. *)
Theorem pick_quality_first_valid (qualities : list QualityOption)
    (invalid : list Z) :
  Forall (λ c, c < 1 ∨ Z.of_nat (length qualities) < c) invalid →
  pick_quality qualities invalid = None
  ∧ ∀ choice rest,
      1 ≤ choice ≤ Z.of_nat (length qualities) →
      ∃ option,
        qualities !! Z.to_nat (choice - 1) = Some option
        ∧ pick_quality qualities (invalid ++ choice :: rest)
          = Some (opt_id option).
Proof.
  intros Hinvalid.
  assert (Hskip : ∀ rest,
            pick_quality qualities (invalid ++ rest)
            = pick_quality qualities rest).
  { intros rest. induction Hinvalid as [|c l Hc _ IH]; [done|]. simpl.
    destruct ((1 <=? c) && (c <=? Z.of_nat (length qualities))) eqn:Hvalid;
      [|done].
    apply andb_prop in Hvalid as [H1 H2]. apply Z.leb_le in H1, H2. lia. }
  split.
  - rewrite <- (app_nil_r invalid). by rewrite Hskip.
  - intros choice rest Hchoice. rewrite Hskip. simpl.
    assert (Hvalid : (1 <=? choice)
                     && (choice <=? Z.of_nat (length qualities)) = true).
    { apply andb_true_intro. split; apply Z.leb_le; lia. }
    rewrite Hvalid.
    destruct (py_index_in_range qualities (choice - 1) ltac:(lia))
      as (option & Hlook & ->).
    by exists option.
Qed.

Lemma pick_quality_first_valid_witness :
  ∃ option,
    [best_option; audio_best_option; audio_m4a_option] !! 1%nat = Some option
    ∧ pick_quality [best_option; audio_best_option; audio_m4a_option]
        [0; 7; 2; 1]
      = Some (opt_id option).
Proof.
  refine (proj2 (pick_quality_first_valid
                   [best_option; audio_best_option; audio_m4a_option]
                   [0; 7] _) 2 [1] _).
  - repeat constructor; simpl; lia.
  - simpl. lia.
Defined.

(** X16.  The single-video flow never raises and downloads only after the
    metadata were fetched: with an empty URL the engine is not called at
    all, and when the fetch fails nothing else is done.  Otherwise the
    quality options come from a second fetch; the quality that is
    downloaded is the default quality when that list is empty and else
    the id of one of the listed options, and the flow reports the file
    when the download returned a path and a failure when it did not. *)
Theorem single_video_flow {W} (eng : Engine W) (downloader : VideoDownloader W)
    (default_quality address : string) (choices : list Z) (w : W) :
  let run :=
    download_single_video eng downloader default_quality address choices in
  (address = "" → run w = ([], Ok (downloader, single_empty_url), w))
  ∧ (address ≠ "" →
     ∀ t1 w1, get_video_info eng address w = (t1, Ok None, w1) →
       run w = (t1, Ok (downloader, single_no_info), w1))
  ∧ (address ≠ "" →
     ∀ t1 w1 info t2 w2 qualities,
       get_video_info eng address w = (t1, Ok (Some info), w1) →
       get_quality_options eng address w1 = (t2, Ok qualities, w2) →
       match (match qualities with
              | [] => Some default_quality
              | _ => pick_quality qualities choices
              end) with
       | None => run w = (t1 ++ t2, Ok (downloader, single_waiting), w2)
       | Some quality =>
           (qualities = [] ∧ quality = default_quality
            ∨ ∃ option, option ∈ qualities ∧ opt_id option = quality)
           ∧ ∃ t3 result w3,
               download_video eng
                 (set_progress_callback downloader update_progress_single)
                 (Some address) (Some quality) None w2
               = (t3, Ok result, w3)
               ∧ run w
                 = (t1 ++ t2 ++ t3,
                    Ok (set_progress_callback downloader
                          update_progress_single,
                        if truthy_str result
                        then single_done (default "" result)
                        else single_failed), w3)
       end)
  ∧ returns run w.
Proof.
  intros run.
  assert (Hempty : address = "" →
            run w = ([], Ok (downloader, single_empty_url), w)).
  { intros ->. reflexivity. }
  assert (Hflow : address ≠ "" →
            run w
            = (get_video_info eng address
               ≫= λ info,
                    match info with
                    | None => ret (downloader, single_no_info)
                    | Some _ =>
                        get_quality_options eng address
                        ≫= λ qualities,
                             match (match qualities with
                                    | [] => Some default_quality
                                    | _ => pick_quality qualities choices
                                    end) with
                             | None => ret (downloader, single_waiting)
                             | Some quality =>
                                 download_video eng
                                   (set_progress_callback downloader
                                      update_progress_single)
                                   (Some address) (Some quality) None
                                 ≫= λ result,
                                      if truthy_str result
                                      then ret (set_progress_callback
                                                  downloader
                                                  update_progress_single,
                                                single_done
                                                  (default "" result))
                                      else ret (set_progress_callback
                                                  downloader
                                                  update_progress_single,
                                                single_failed)
                             end
                    end) w).
  { intros Hne. unfold run, download_single_video.
    assert (Ht : truthy_str (Some address) = true).
    { unfold truthy_str. destruct (String.eqb_spec address ""); done. }
    by rewrite Ht. }
  assert (Hfull : address ≠ "" →
     ∀ t1 w1 info t2 w2 qualities,
       get_video_info eng address w = (t1, Ok (Some info), w1) →
       get_quality_options eng address w1 = (t2, Ok qualities, w2) →
       match (match qualities with
              | [] => Some default_quality
              | _ => pick_quality qualities choices
              end) with
       | None => run w = (t1 ++ t2, Ok (downloader, single_waiting), w2)
       | Some quality =>
           (qualities = [] ∧ quality = default_quality
            ∨ ∃ option, option ∈ qualities ∧ opt_id option = quality)
           ∧ ∃ t3 result w3,
               download_video eng
                 (set_progress_callback downloader update_progress_single)
                 (Some address) (Some quality) None w2
               = (t3, Ok result, w3)
               ∧ run w
                 = (t1 ++ t2 ++ t3,
                    Ok (set_progress_callback downloader
                          update_progress_single,
                        if truthy_str result
                        then single_done (default "" result)
                        else single_failed), w3)
       end).
  { intros Hne t1 w1 info t2 w2 qualities Hinfo Hq.
    rewrite (Hflow Hne), bind_run, Hinfo, bind_run, Hq.
    destruct (match qualities with
              | [] => Some default_quality
              | _ => pick_quality qualities choices
              end) as [quality|] eqn:Hpick.
    - split.
      + destruct qualities as [|o qs]; [left; split; congruence|].
        right. by apply (pick_quality_offered _ choices).
      + destruct (download_video_result eng
                    (set_progress_callback downloader update_progress_single)
                    (Some address) (Some quality) None w2)
          as (t3 & result & w3 & Hdl).
        exists t3, result, w3. split; [done|].
        rewrite bind_run, Hdl.
        destruct (truthy_str result); simpl; by rewrite app_nil_r.
    - simpl. by rewrite app_nil_r. }
  split_and!; [done| |done|].
  - intros Hne t1 w1 Hinfo. rewrite (Hflow Hne), bind_run, Hinfo.
    simpl. by rewrite app_nil_r.
  - unfold returns. destruct (String.eqb_spec address "") as [Heq|Hne].
    + rewrite (Hempty Heq). by eexists _, _, _.
    + destruct (get_video_info_returns eng address w)
        as (t1 & [info|] & w1 & Hinfo).
      * assert (Hq : returns (get_quality_options eng address) w1).
        { unfold returns. rewrite get_quality_options_run.
          destruct (get_video_info_returns eng address w1)
            as (t & [i|] & w' & ->); eauto. }
        destruct Hq as (t2 & qualities & w2 & Hq).
        pose proof (Hfull Hne t1 w1 info t2 w2 qualities Hinfo Hq) as H.
        destruct (match qualities with
                  | [] => Some default_quality
                  | _ => pick_quality qualities choices
                  end) as [quality|].
        -- destruct H as (_ & t3 & result & w3 & _ & ->).
           by eexists _, _, _.
        -- rewrite H. by eexists _, _, _.
      * rewrite (Hflow Hne), bind_run, Hinfo. by eexists _, _, _.
Qed.

Lemma single_video_flow_witness :
  download_single_video ladder_engine (VideoDownloader_init "downloads")
    "best" "https://example.org/v" [2]
    []
  = ([stdout "Error downloading video: Unsupported URL"],
     Ok (set_progress_callback (VideoDownloader_init "downloads")
           update_progress_single, single_failed),
     [Some "https://example.org/v"]).
Proof.
  pose proof (proj1 (proj2 (proj2 (single_video_flow ladder_engine
                 (VideoDownloader_init "downloads") "best"
                 "https://example.org/v" [2] []))) ltac:(discriminate)
                _ _ _ _ _ _ eq_refl eq_refl) as H.
  simpl in H. destruct H as (_ & t3 & result & w3 & Hdl & Hrun).
  injection Hdl as <- <- <-. exact Hrun.
Defined.

(** ** Shape of the quality listing, texts of the errors *)

Lemma standard_ids_distinct (h1 h2 : Z) :
  h1 ∈ standard_heights → h2 ∈ standard_heights →
  opt_id (height_option h1) = opt_id (height_option h2) → h1 = h2.
Proof.
  unfold standard_heights. rewrite !elem_of_cons, !elem_of_nil.
  intros H1 H2.
  destruct H1 as [->|[->|[->|[->|[->|[->|[->|[->|[]]]]]]]]];
    destruct H2 as [->|[->|[->|[->|[->|[->|[->|[->|[]]]]]]]]];
    vm_compute; intros Heq; try reflexivity; discriminate.
Qed.

Lemma strictly_sorted_NoDup (hs : list Z) : StronglySorted Z.gt hs → NoDup hs.
Proof.
  induction 1 as [|h hs _ IH Hh]; constructor; [|done].
  intros Hin. rewrite Forall_forall in Hh. specialize (Hh h Hin). lia.
Qed.

(** X17.  A listing returned by [get_quality_options] is either empty or
    holds between 3 and 11 options, and no two of its options have the
    same id: an id selects one option. *)
Theorem quality_listing_ids_distinct {W} (eng : Engine W) (video_url : string)
    (w w' : W) (t : list event) (qualities : list QualityOption) :
  get_quality_options eng video_url w = (t, Ok qualities, w') →
  qualities = []
  ∨ (3 ≤ length qualities ≤ 11)%nat ∧ NoDup (opt_id <$> qualities).
Proof.
  rewrite get_quality_options_run.
  destruct (get_video_info eng video_url w) as [[t1 [[info|]|e]] w1];
    [|intros [= _ <- _]; by left|discriminate].
  intros [= _ <- _]. right.
  destruct (quality_options_of_shape info) as (hs & -> & Hsorted & Hmem).
  pose proof (strictly_sorted_NoDup hs Hsorted) as Hnodup.
  assert (Hstd : ∀ h, h ∈ hs → h ∈ standard_heights)
    by (intros h Hh; by apply Hmem in Hh as [? _]).
  assert (Hlen : (length hs ≤ 8)%nat).
  { change 8%nat with (length standard_heights).
    apply submseteq_length, NoDup_submseteq; done. }
  split.
  - simpl. rewrite length_app, length_fmap. simpl. lia.
  - assert (Hform : opt_id <$> best_option :: map height_option hs
                               ++ [audio_best_option; audio_m4a_option]
                    = opt_id best_option
                      :: ((opt_id ∘ height_option) <$> hs)
                         ++ [opt_id audio_best_option;
                             opt_id audio_m4a_option]).
    { rewrite fmap_cons. f_equal. clear.
      induction hs as [|h hs IH]; [done|].
      simpl. f_equal. exact IH. }
    rewrite Hform. clear Hform.
    assert (Hother : ∀ o, o ∈ [best_option; audio_best_option;
                               audio_m4a_option] →
              opt_id o ∉ (opt_id ∘ height_option) <$> hs).
    { intros o Ho Hin. apply list_elem_of_fmap in Hin as (h & Heq & _).
      simpl in Heq.
      rewrite !elem_of_cons, elem_of_nil in Ho.
      destruct Ho as [->|[->|[->|[]]]]; simpl in Heq; discriminate. }
    apply NoDup_cons. split.
    + rewrite elem_of_app. intros [Hin|Hin].
      * apply (Hother best_option); [by left|done].
      * simpl in Hin. rewrite !elem_of_cons, elem_of_nil in Hin.
        destruct Hin as [Hin|[Hin|[]]]; discriminate.
    + apply NoDup_app. split_and!.
      * apply NoDup_fmap_2_strong; [|done].
        intros h1 h2 Hh1 Hh2. apply standard_ids_distinct; auto.
      * intros x Hx Hin. simpl in Hin.
        rewrite !elem_of_cons, elem_of_nil in Hin.
        destruct Hin as [->|[->|[]]].
        -- apply (Hother audio_best_option); [by right; left|done].
        -- apply (Hother audio_m4a_option); [by right; right; left|done].
      * simpl. apply NoDup_cons. split; [|apply NoDup_singleton].
        rewrite elem_of_cons, elem_of_nil. intros [Heq|[]]. discriminate.
Qed.

Lemma quality_listing_ids_distinct_witness :
  (3 ≤ 6 ≤ 11)%nat
  ∧ NoDup (opt_id <$> [best_option; height_option 2160; height_option 1080;
                        height_option 720; audio_best_option;
                        audio_m4a_option]).
Proof.
  destruct (quality_listing_ids_distinct ladder_engine "https://example.org/v"
              [] [] [] _ eq_refl) as [Hnil|H]; [discriminate|exact H].
Defined.

(** X18.  The error events that a download request sends to the browser
    carry one of two fixed texts, "URL is required" or "Download failed":
    the message of an exception of the engine only goes to the standard
    output. *)
Theorem job_error_texts {W} (eng : Engine W) (data : StartDownload) (w : W) :
  Forall fixed_error (trace_of (run_request (handle_download eng data)) w).
Proof.
  set (id := download_id_of data).
  set (video_url := get_or "" (sd_url data)).
  set (quality := get_or "best" (sd_quality data)).
  unfold trace_of, run_request, handle_download.
  fold id video_url quality.
  destruct (truthy_str video_url) eqn:Hurl; simpl negb; cbv iota.
  - destruct (do_download_run eng video_url quality id w)
      as (t & result & w' & Hdl & Hrun).
    rewrite !bind_run. simpl. rewrite Hrun. simpl.
    constructor; [done|]. apply Forall_app. split.
    + replace t with (trace_of (download_video eng
                        (local_downloader (progress_callback id))
                        video_url quality None) w)
        by (unfold trace_of; by rewrite Hdl).
      apply (Forall_impl not_error); [|by intros []].
      apply download_video_trace; [done|].
      intros callback Hcb p w0. injection Hcb as <-.
      unfold trace_of, progress_callback. rewrite bind_run.
      destruct (downloaded_bytes p); simpl; repeat constructor.
    + repeat constructor. unfold terminal_of.
      destruct (truthy_str result); simpl; [done|by right].
  - simpl. repeat constructor.
Qed.

(** ** How often the engine is called *)

Lemma hooks_keep_world {W} (self : VideoDownloader W)
    (reports : list RawProgress) :
  (∀ callback, _progress_callback self = Some callback →
     ∀ p, keeps_world (callback p)) →
  keeps_world (for_each (_progress_hook self) reports).
Proof.
  intros Hcb. induction reports as [|d reports IH]; intros w; [done|].
  unfold world_after. rewrite for_each_cons, bind_run.
  assert (Hd : world_after (_progress_hook self d) w = w).
  { unfold world_after, _progress_hook.
    destruct (_progress_callback self) as [callback|] eqn:E; [|done].
    rewrite bind_run. destruct (normalize d) as [p|e]; simpl; [|done].
    pose proof (Hcb callback eq_refl p w) as Hp. unfold world_after in Hp.
    by destruct (callback p w) as [[t r] w']. }
  unfold world_after in Hd.
  destruct (_progress_hook self d w) as [[t1 [[]|e]] w1]; simpl in *;
    subst w1; [|done].
  specialize (IH w). unfold world_after in IH.
  by destruct (for_each (_progress_hook self) reports w) as [[t2 r] w2].
Qed.

Lemma download_video_world {W} (eng : Engine W) (self : VideoDownloader W)
    (video_url quality filename_template : option string) (w : W) :
  (∀ callback, _progress_callback self = Some callback →
     ∀ p, keeps_world (callback p)) →
  world_after (download_video eng self video_url quality filename_template) w
  = (run_download eng video_url quality
       (output_path_of self filename_template) w).2.
Proof.
  intros Hcb. unfold world_after, download_video, try_except.
  rewrite bind_run. unfold extract_info_download.
  destruct (run_download eng video_url quality
              (output_path_of self filename_template) w)
    as [[reports r] w1].
  rewrite bind_run.
  pose proof (hooks_keep_world self reports Hcb w1) as Hh.
  unfold world_after in Hh.
  destruct (for_each (_progress_hook self) reports w1)
    as [[t1 [[]|e1]] w2]; simpl in *; subst w2; [|done].
  destruct r as [[info|]|e]; simpl; try done.
  by destruct (prepare_filename eng _ info).
Qed.

Lemma logged_download {W} (eng : Engine W)
    (self : VideoDownloader (W * list engine_call))
    (video_url quality filename_template : option string)
    (s : W * list engine_call) :
  (∀ callback, _progress_callback self = Some callback →
     ∀ p, keeps_world (callback p)) →
  (world_after (download_video (logged eng) self video_url quality
                  filename_template) s).2
  = s.2 ++ [call_download video_url quality
              (output_path_of self filename_template)].
Proof.
  intros Hcb. rewrite download_video_world by done. simpl.
  by destruct (run_download eng video_url quality _ s.1) as [[reports r] w'].
Qed.

Lemma logged_info {W} (eng : Engine W) (video_url : string)
    (s : W * list engine_call) :
  (world_after (get_video_info (logged eng) video_url) s).2
  = s.2 ++ [call_info video_url].
Proof.
  unfold world_after. rewrite get_video_info_run. simpl.
  destruct (extract_info eng video_url s.1) as [[[info|]|e] w']; simpl;
    try done.
  by destruct (get_or [] (i_formats info)).
Qed.

Lemma logged_quality_options {W} (eng : Engine W) (video_url : string)
    (s : W * list engine_call) :
  (world_after (get_quality_options (logged eng) video_url) s).2
  = s.2 ++ [call_info video_url].
Proof.
  pose proof (logged_info eng video_url s) as Hinfo.
  unfold world_after in *. rewrite get_quality_options_run.
  by destruct (get_video_info (logged eng) video_url s)
    as [[t [[info|]|e]] s'].
Qed.

Lemma batch_loop_calls {W} (eng : Engine W) (quality batch_id : option string)
    (total : nat) (videos : list BatchVideo) (i : nat)
    (s : W * list engine_call) :
  (world_after (for_each (batch_body (logged eng) quality batch_id total)
                  (enumerate i videos)) s).2
  = s.2 ++ ((λ video, call_download (get_or "" (bv_url video)) quality
                        web_output_path) <$> videos).
Proof.
  revert i s. induction videos as [|video rest IH]; intros i s.
  - simpl. by rewrite app_nil_r.
  - destruct (batch_download_video_run (logged eng) quality batch_id i video s)
      as (t1 & result & s1 & Hrun & _).
    assert (Hlog : s1.2 = s.2 ++ [call_download (get_or "" (bv_url video))
                                    quality web_output_path]).
    { pose proof (logged_download eng
                    (local_downloader
                       (make_progress_callback batch_id
                          (video_id_of batch_id i)))
                    (get_or "" (bv_url video)) quality None s) as Hd.
      unfold world_after in Hd. unfold batch_download_video in Hrun.
      rewrite Hrun in Hd. apply Hd.
      intros callback [= <-] p w. reflexivity. }
    change (enumerate i (video :: rest))
      with ((i, video) :: enumerate (S i) rest).
    unfold world_after. rewrite for_each_cons, bind_run.
    rewrite (batch_body_run _ _ _ total _ _ _ _ _ _ Hrun).
    specialize (IH (S i) s1). unfold world_after in IH.
    destruct (for_each _ (enumerate (S i) rest) s1) as [[t2 r] s2].
    simpl in *. rewrite IH, Hlog, <- app_assoc. done.
Qed.

(** X19.  A web batch asks the engine for exactly one download per video
    of the request, in the order of the request, each with the URL of its
    video, the quality of the request and the output template under
    ["downloads"]; it makes no other call to the engine. *)
Theorem batch_calls_engine_once_per_video {W} (eng : Engine W)
    (videos : list BatchVideo) (quality batch_id : option string)
    (w : W) (log : list engine_call) :
  (world_after (do_batch_download (logged eng) (Some videos) quality batch_id)
     (w, log)).2
  = log ++ ((λ video, call_download (get_or "" (bv_url video)) quality
                        web_output_path) <$> videos).
Proof.
  pose proof (batch_loop_calls eng quality batch_id (length videos) videos 0
                (w, log)) as Hloop.
  unfold world_after in *. unfold do_batch_download.
  rewrite bind_run. unfold ret at 1. rewrite bind_run.
  destruct (for_each _ (enumerate 0 videos) (w, log)) as [[t [[]|e]] s'];
    simpl in *; done.
Qed.

(** X20.  The route [/api/info] makes no call to the engine for an empty
    URL, one metadata query when the fetch returns nothing, and two
    metadata queries for the same URL when it answers with the metadata:
    the quality options come from a second fetch. *)
Theorem info_route_fetches_twice {W} (eng : Engine W) (data : InfoRequest)
    (w : W) (log : list engine_call) :
  let address := get_or "" (ir_url data) in
  let run := app.get_video_info (logged eng) data in
  (truthy_str address = false → (world_after run (w, log)).2 = log)
  ∧ (truthy_str address = true →
     ∃ r, result_of run (w, log) = Ok r
          ∧ ((∃ error status, r = json_error error status) →
             (world_after run (w, log)).2
             = log ++ [call_info (default "" address)])
          ∧ ((∃ body, r = json_ok body) →
             (world_after run (w, log)).2
             = log ++ [call_info (default "" address);
                       call_info (default "" address)])).
Proof.
  intros address run. split.
  - intros Hurl. unfold run, app.get_video_info. fold address.
    by rewrite Hurl.
  - intros Hurl.
    assert (Hrun : run (w, log)
                   = (get_video_info (logged eng) (default "" address)
                      ≫= λ info,
                           match info with
                           | None =>
                               ret (json_error "Could not fetch video info"
                                      400)
                           | Some info =>
                               get_quality_options (logged eng)
                                 (default "" address)
                               ≫= λ qualities,
                                    ret (json_ok
                                      {| ib_title := title info;
                                         ib_uploader := uploader info;
                                         ib_duration :=
                                           format_duration (duration info);
                                         ib_thumbnail := thumbnail info;
                                         ib_qualities := qualities |})
                           end) (w, log)).
    { unfold run, app.get_video_info. fold address. by rewrite Hurl. }
    unfold result_of, world_after. rewrite Hrun, bind_run. clear Hrun.
    pose proof (logged_info eng (default "" address) (w, log)) as Hone.
    unfold world_after in Hone.
    destruct (get_video_info_returns (logged eng) (default "" address)
                (w, log)) as (t1 & [info|] & s1 & Hinfo).
    + rewrite Hinfo in *. simpl in Hone. rewrite bind_run.
      pose proof (logged_quality_options eng (default "" address) s1) as Htwo.
      unfold world_after in Htwo.
      assert (Hq : returns (get_quality_options (logged eng)
                              (default "" address)) s1).
      { unfold returns. rewrite get_quality_options_run.
        destruct (get_video_info_returns (logged eng) (default "" address) s1)
          as (t & [i|] & s' & ->); eauto. }
      destruct Hq as (t2 & qs & s2 & Hq). rewrite Hq in *. simpl in *.
      eexists. split; [reflexivity|]. split.
      * intros (error & status & Heq). discriminate.
      * intros _. rewrite Htwo, Hone, <- app_assoc. done.
    + rewrite Hinfo in *. simpl in *.
      eexists. split; [reflexivity|]. split; [done|].
      intros (body & Heq). discriminate.
Qed.

Lemma info_route_fetches_twice_witness :
  (world_after
     (app.get_video_info (logged ladder_engine)
        {| ir_url := Val "https://example.org/v" |}) ([], [])).2
  = [call_info "https://example.org/v"; call_info "https://example.org/v"].
Proof.
  destruct (proj2 (info_route_fetches_twice ladder_engine
                     {| ir_url := Val "https://example.org/v" |} [] [])
              eq_refl) as (r & Hr & _ & Hok).
  apply Hok. injection Hr as <-. by eexists.
Defined.
